(** * semf-model: the mass-table decoder and the surface renderer

    A shallow embedding of the two scripts of the repository,

      - [src/data/parse.py]        (the Table Decoder), and
      - [src/analysis/3d-plot.py]  (the Surface Renderer),

    together with the properties of their behaviour.

    Both scripts are straight-line sequences of pandas calls.  Each call
    is embedded as a function on an explicit model of a DataFrame (an
    association list from column names to columns, so that column order
    is kept); a call that raises in Python returns [Raise].

    Modelling conventions.
      - A value stored in a column is an [int64], a [float64] or a Python
        string ([value]).  A column is the list of its values; its dtype
        is read off the values (an [object] column is one that holds a
        string, or has no row at all).
      - A character is a code point below 256.
      - A finite [float64] is carried as the exact rational it stands
        for, kept in lowest terms; binary rounding, signed zeros and
        overflow of the results of arithmetic are not modelled.  The
        three special values [inf], [-inf] and [NaN] are, and so is the
        overflow of a numeric literal, which the library rejects.
      - The reader's boolean literals ([True]/[False] columns) are not
        modelled; such a field is an ordinary string here. *)

From Stdlib Require Import List String Ascii ZArith QArith Qabs Bool Lia.
From Stdlib Require Import Sorting.Sorted Sorting.Permutation.
Import ListNotations.

Local Open Scope string_scope.
Local Open Scope Z_scope.

(** ** Exceptions *)

Inductive exn : Type :=
| AttributeError
| ValueError
| TypeError
| KeyError.

Inductive result (A : Type) : Type :=
| Ok (a : A)
| Raise (e : exn).

Arguments Ok {A} a.
Arguments Raise {A} e.

Definition bind {A B : Type} (m : result A) (k : A -> result B) : result B :=
  match m with
  | Ok a => k a
  | Raise e => Raise e
  end.

Notation "x <- m ;; k" := (bind m (fun x => k))
  (at level 61, m at next level, right associativity).

Fixpoint mapM {A B : Type} (f : A -> result B) (l : list A) : result (list B) :=
  match l with
  | [] => Ok []
  | a :: l' => b <- f a ;; bs <- mapM f l' ;; Ok (b :: bs)
  end.

Definition is_ok {A : Type} (m : result A) : bool :=
  match m with Ok _ => true | Raise _ => false end.

(** ** Numbers and values *)

Inductive float64 : Type :=
| Fin (q : Q)
| PInf
| NInf
| NaN.

Inductive value : Type :=
| VInt (z : Z)
| VFloat (f : float64)
| VStr (s : string).

Definition column := list value.

Definition fin_of_Z (z : Z) : float64 := Fin (z # 1).

Definition fneg (a : float64) : float64 :=
  match a with
  | Fin q => Fin (Qred (- q))
  | PInf => NInf
  | NInf => PInf
  | NaN => NaN
  end.

Definition fadd (a b : float64) : float64 :=
  match a, b with
  | NaN, _ | _, NaN => NaN
  | Fin x, Fin y => Fin (Qred (x + y))
  | PInf, NInf | NInf, PInf => NaN
  | PInf, _ | _, PInf => PInf
  | NInf, _ | _, NInf => NInf
  end.

Definition fsub (a b : float64) : float64 := fadd a (fneg b).

(** Sign of a finite value, used for a division by zero or by infinity. *)
Definition qsign (q : Q) : comparison := (Qnum q ?= 0)%Z.

Definition fdiv (a b : float64) : float64 :=
  match a, b with
  | NaN, _ | _, NaN => NaN
  | Fin x, Fin y =>
      match qsign y with
      | Eq => match qsign x with
              | Eq => NaN
              | Gt => PInf
              | Lt => NInf
              end
      | _ => Fin (Qred (x / y))
      end
  | Fin _, _ => Fin 0
  | PInf, Fin y => match qsign y with Lt => NInf | _ => PInf end
  | NInf, Fin y => match qsign y with Lt => PInf | _ => NInf end
  | _, _ => NaN
  end.

(** [pd.isnull] on one value. *)
Definition isnull (v : value) : bool :=
  match v with
  | VFloat NaN => true
  | _ => false
  end.

Definition is_str (v : value) : bool :=
  match v with VStr _ => true | _ => false end.

Definition is_int (v : value) : bool :=
  match v with VInt _ => true | _ => false end.

Definition to_float (v : value) : value :=
  match v with
  | VInt z => VFloat (fin_of_Z z)
  | _ => v
  end.

(** A numeric column is [int64] when every value is an integer, and
    [float64] as soon as one value is a float or is missing. *)
Definition promote (c : column) : column :=
  if forallb is_int c then c else map to_float c.

(** [int64] arithmetic wraps around. *)
Definition wrap64 (x : Z) : Z := (x + 2 ^ 63) mod 2 ^ 64 - 2 ^ 63.

(** ** Strings *)

(** The characters the fixed-width reader strips from a field
    (its default delimiter, ["\n\r\t "]). *)
Definition is_delimiter (c : ascii) : bool :=
  match c with
  | " "%char | "009"%char | "010"%char | "013"%char => true
  | _ => false
  end.

(** ASCII white space, as skipped around a numeric literal by the
    library's C parser. *)
Definition isspace (c : ascii) : bool :=
  match c with
  | " "%char | "009"%char | "010"%char | "011"%char | "012"%char | "013"%char => true
  | _ => false
  end.

(** White space for Python's [str.strip()]: the characters for which
    [str.isspace()] holds. *)
Definition py_isspace (c : ascii) : bool :=
  match c with
  | " "%char | "009"%char | "010"%char | "011"%char | "012"%char | "013"%char
  | "028"%char | "029"%char | "030"%char | "031"%char
  | "133"%char | "160"%char => true
  | _ => false
  end.

Fixpoint lstrip (p : ascii -> bool) (s : string) : string :=
  match s with
  | String c s' => if p c then lstrip p s' else s
  | EmptyString => EmptyString
  end.

Fixpoint rstrip (p : ascii -> bool) (s : string) : string :=
  match s with
  | String c s' =>
      match rstrip p s' with
      | EmptyString => if p c then EmptyString else String c EmptyString
      | r => String c r
      end
  | EmptyString => EmptyString
  end.

(** [s.strip(chars)], the characters given by a predicate. *)
Definition strip (p : ascii -> bool) (s : string) : string := rstrip p (lstrip p s).

(** [s.replace(pat, repl)] for a one-character pattern: every occurrence
    is replaced. *)
Fixpoint str_replace (pat : ascii) (repl : string) (s : string) : string :=
  match s with
  | String c s' =>
      if Ascii.eqb c pat then repl ++ str_replace pat repl s'
      else String c (str_replace pat repl s')
  | EmptyString => EmptyString
  end.

(** Python's slice [s[from:to]]: whatever lies past the end of [s] is
    left out, and no error is raised. *)
Definition slice (from to : nat) (s : string) : string :=
  substring from (to - from) s.

(** ** Numeric literals

    The string-to-number conversion shared by the reader's type inference
    and by [pd.to_numeric].  White space around the literal is skipped;
    the literal is an optional sign, decimal digits with an optional
    fractional part, and an optional exponent.  A literal without point
    and exponent is an integer.  A literal with a decimal exponent above
    308, or whose value is beyond the largest float, is rejected; one
    too small for a float is zero.  A string that is no such literal is
    still a number when it spells infinity: [inf] or [infinity], with an
    optional sign, in any case, without surrounding white space.  NaN
    has no spelling here: the tokens that stand for it are the reader's
    missing-value tokens.

    A field of the layout is at most 14 characters wide, so that a
    literal has fewer than the 17 digits after which the library stops
    accumulating the mantissa; that cut is not modelled. *)

Definition digit_of (c : ascii) : option Z :=
  let n := nat_of_ascii c in
  if andb (Nat.leb 48 n) (Nat.leb n 57) then Some (Z.of_nat (n - 48)) else None.

(** Reads the longest prefix of digits: the number read (continuing from
    [acc]), how many digits were read, and the rest of the string. *)
Fixpoint take_digits (acc : Z) (s : string) : Z * nat * string :=
  match s with
  | String c s' =>
      match digit_of c with
      | Some d =>
          let '(v, n, r) := take_digits (acc * 10 + d) s' in (v, S n, r)
      | None => (acc, O, s)
      end
  | EmptyString => (acc, O, s)
  end.

Definition take_sign (s : string) : bool * string :=
  match s with
  | String "-"%char s' => (true, s')
  | String "+"%char s' => (false, s')
  | _ => (false, s)
  end.

Definition signed (neg : bool) (z : Z) : Z := if neg then - z else z.

(** The exponent of a literal is accumulated in a C [int]; beyond its
    range it wraps around, as on the usual platforms. *)
Definition wrap32 (x : Z) : Z := (x + 2 ^ 31) mod 2 ^ 32 - 2 ^ 31.

(** From this magnitude on a value rounds to infinity. *)
Definition overflow_threshold : Q := (2 ^ 1024 - 2 ^ 970) # 1.

(** Up to this magnitude a value rounds to zero. *)
Definition underflow_threshold : Q := 1 # Z.to_pos (2 ^ 1075).

(** The value [m * 10 ^ e] as a float; [None] where the library reports
    a range error. *)
Definition decimal (m e : Z) : option value :=
  if 308 <? e then None
  else if e <? -616 then Some (VFloat (Fin (0 # 1)))
  else
    let q := if 0 <=? e then (m * 10 ^ e) # 1 else m # Z.to_pos (10 ^ (- e)) in
    if Qle_bool overflow_threshold (Qabs q) then None
    else if Qle_bool (Qabs q) underflow_threshold then Some (VFloat (Fin (0 # 1)))
    else Some (VFloat (Fin (Qred q))).

(** The exponent part: what is left of the literal after its mantissa.
    At most 17 digits are read. *)
Definition parse_exponent (s : string) : option Z :=
  match s with
  | EmptyString => Some 0
  | String c s' =>
      if orb (Ascii.eqb c "e") (Ascii.eqb c "E") then
        let (neg, s1) := take_sign s' in
        match take_digits 0 s1 with
        | (_, O, _) => None
        | (v, n, EmptyString) =>
            if Nat.leb n 17 then Some (signed neg (wrap32 v)) else None
        | _ => None
        end
      else None
  end.

Definition parse_literal (s : string) : option value :=
  let (neg, s1) := take_sign s in
  let '(ip, ni, s2) := take_digits 0 s1 in
  match s2 with
  | EmptyString =>
      match ni with
      | O => None
      | _ => Some (VInt (signed neg ip))
      end
  | String "."%char s3 =>
      let '(m, nf, s4) := take_digits ip s3 in
      match (ni + nf)%nat with
      | O => None
      | _ =>
          match parse_exponent s4 with
          | Some e => decimal (signed neg m) (wrap32 (e - Z.of_nat nf))
          | None => None
          end
      end
  | _ =>
      match ni with
      | O => None
      | _ =>
          match parse_exponent s2 with
          | Some e => decimal (signed neg ip) (wrap32 e)
          | None => None
          end
      end
  end.

Definition lower (c : ascii) : ascii :=
  let n := nat_of_ascii c in
  if andb (Nat.leb 65 n) (Nat.leb n 90) then ascii_of_nat (n + 32) else c.

Fixpoint lowercase (s : string) : string :=
  match s with
  | EmptyString => EmptyString
  | String c s' => String (lower c) (lowercase s')
  end.

(** The spellings of infinity, compared without regard to case. *)
Definition parse_infinity (s : string) : option value :=
  let t := lowercase s in
  if existsb (String.eqb t) ["inf"; "+inf"; "infinity"; "+infinity"]
  then Some (VFloat PInf)
  else if existsb (String.eqb t) ["-inf"; "-infinity"]
       then Some (VFloat NInf)
       else None.

Definition parse_number (s : string) : option value :=
  match parse_literal (strip isspace s) with
  | Some v => Some v
  | None => parse_infinity s
  end.

(** ** DataFrames *)

Definition frame := list (string * column).

(** [df[name]] *)
Fixpoint getcol (name : string) (df : frame) : result column :=
  match df with
  | [] => Raise KeyError
  | (k, c) :: df' => if String.eqb k name then Ok c else getcol name df'
  end.

(** [df[name] = c]: an existing column is replaced in place, a new one
    is appended on the right. *)
Fixpoint setcol (name : string) (c : column) (df : frame) : frame :=
  match df with
  | [] => [(name, c)]
  | (k, c') :: df' =>
      if String.eqb k name then (k, c) :: df' else (k, c') :: setcol name c df'
  end.

Definition nrows (df : frame) : nat :=
  match df with
  | [] => O
  | (_, c) :: _ => List.length c
  end.

(** ** The fixed-width reader ([pd.read_fwf], parse.py lines 5-12) *)

Definition widths : list nat :=
  [1; 3; 5; 5; 5; 1; 3; 4; 1; 14; 12; 13; 1; 10; 1; 2; 13; 11; 1; 3; 1; 13; 12]%nat.

Definition header : nat := 28.

Definition usecols : list nat := [2; 3; 11; 13]%nat.

Definition names : list string := ["N"; "Z"; "E"; "U(E)"].

(** Widths are turned into half-open character ranges. *)
Fixpoint colspecs_from (col : nat) (ws : list nat) : list (nat * nat) :=
  match ws with
  | [] => []
  | w :: ws' => (col, (col + w)%nat) :: colspecs_from (col + w)%nat ws'
  end.

Definition colspecs : list (nat * nat) := colspecs_from 0 widths.

(** One line of the file cut into its fields, each stripped of the
    surrounding white space. *)
Definition fwf_fields (line : string) : list string :=
  map (fun '(from, to) => strip is_delimiter (slice from to line)) colspecs.

(** A line all of whose fields are empty, or white space only, is
    skipped ([skip_blank_lines], on by default): the reader keeps a row
    when [e.strip()] is not empty for one of its fields [e]. *)
Definition is_empty_row (fields : list string) : bool :=
  forallb (fun f => String.eqb (strip py_isspace f) "") fields.

(** The reader's default missing-value tokens. *)
Definition na_values : list string :=
  [""; "#N/A"; "#N/A N/A"; "#NA"; "-1.#IND"; "-1.#QNAN"; "-NaN"; "-nan";
   "1.#IND"; "1.#QNAN"; "<NA>"; "N/A"; "NA"; "NULL"; "NaN"; "None"; "n/a";
   "nan"; "null"].

Definition is_na (s : string) : bool :=
  existsb (String.eqb s) na_values.

(** All the results, when none is missing. *)
Fixpoint sequence {A : Type} (l : list (option A)) : option (list A) :=
  match l with
  | [] => Some []
  | Some a :: l' =>
      match sequence l' with
      | Some r => Some (a :: r)
      | None => None
      end
  | None :: _ => None
  end.

(** The reader's conversion of one field, when the whole column is
    numeric. *)
Definition numeric_field (s : string) : option value :=
  if is_na s then Some (VFloat NaN) else parse_number s.

(** The same field when the column stays a column of strings. *)
Definition object_field (s : string) : value :=
  if is_na s then VFloat NaN else VStr s.

(** Type inference of a column: numeric when every field that is not a
    missing-value token is a numeric literal, strings otherwise.  A frame
    without rows has [object] columns. *)
Definition infer_types (fields : list string) : column :=
  match sequence (map numeric_field fields) with
  | Some vs => promote vs
  | None => map object_field fields
  end.

(** The rows of the file: one per line, empty rows skipped. *)
Definition file_rows (lines : list string) : list (list string) :=
  filter (fun r => negb (is_empty_row r)) (map fwf_fields lines).

(** The rows that carry data: the rows up to and including row [header]
    are consumed as the header, whose labels are replaced by [names]. *)
Definition data_rows (lines : list string) : list (list string) :=
  skipn (S header) (file_rows lines).

(** The raw fields of one column of the layout, one per data row. *)
Definition raw_column (i : nat) (lines : list string) : list string :=
  map (fun r => nth i r "") (data_rows lines).

(** The frame read: the four columns of [usecols], named by [names].  A
    file that ends before row [header] is an error. *)
Definition read_fwf (lines : list string) : result frame :=
  if Nat.leb (List.length (file_rows lines)) header then Raise ValueError
  else
    Ok (map (fun '(name, i) => (name, infer_types (raw_column i lines)))
            (combine names usecols)).

(** ** Column operations *)

(** The [.str] accessor exists on columns of strings only. *)
Definition is_object (c : column) : bool :=
  match c with
  | [] => true
  | _ => existsb is_str c
  end.

Definition str_accessor (c : column) : result column :=
  if is_object c then Ok c else Raise AttributeError.

(** [c.str.replace(pat, repl)]: a value that is not a string becomes
    missing. *)
Definition series_str_replace (pat : ascii) (repl : string) (c : column) : column :=
  map (fun v => match v with
                | VStr s => VStr (str_replace pat repl s)
                | _ => VFloat NaN
                end) c.

(** [pd.to_numeric] on one value: numbers pass, the empty string is
    missing, any other string has to be a numeric literal. *)
Definition to_numeric1 (v : value) : option value :=
  match v with
  | VStr EmptyString => Some (VFloat NaN)
  | VStr s => parse_number s
  | _ => Some v
  end.

Inductive errors_mode : Type := errors_raise | errors_coerce.

(** With [errors="coerce"] a string that is no numeric literal becomes
    missing. *)
Definition coerced (v : value) : value :=
  match to_numeric1 v with
  | Some x => x
  | None => VFloat NaN
  end.

(** [pd.to_numeric(c, errors=mode)]; the default mode raises on the
    first string that is no numeric literal. *)
Definition to_numeric (mode : errors_mode) (c : column) : result column :=
  match mode with
  | errors_coerce =>
      Ok (promote (map coerced c))
  | errors_raise =>
      match sequence (map to_numeric1 c) with
      | Some vs => Ok (promote vs)
      | None => Raise ValueError
      end
  end.

Inductive binop : Type := Add | Sub | Div.

Definition as_float (v : value) : option float64 :=
  match v with
  | VInt z => Some (fin_of_Z z)
  | VFloat f => Some f
  | VStr _ => None
  end.

(** Element-wise arithmetic.  Where one operand is missing the result is
    missing, whatever the other operand is (for [object] columns pandas
    applies the operator to the non-missing pairs only).  Integers add
    and subtract as [int64]; the division is the true division, on
    floats; two strings concatenate under [+], and any other use of a
    string raises. *)
Definition arith (op : binop) (x y : value) : result value :=
  if orb (isnull x) (isnull y) then Ok (VFloat NaN)
  else
    match op, x, y with
    | Add, VInt a, VInt b => Ok (VInt (wrap64 (a + b)))
    | Sub, VInt a, VInt b => Ok (VInt (wrap64 (a - b)))
    | Add, VStr a, VStr b => Ok (VStr (a ++ b))
    | _, _, _ =>
        match as_float x, as_float y with
        | Some a, Some b =>
            Ok (VFloat match op with
                       | Add => fadd a b
                       | Sub => fsub a b
                       | Div => fdiv a b
                       end)
        | _, _ => Raise TypeError
        end
    end.

Definition series_arith (op : binop) (a b : column) : result column :=
  mapM (fun '(x, y) => arith op x y) (combine a b).

(** ** The Table Decoder (parse.py lines 14-24), one statement each *)

(** [1 - pd.isnull(v)] *)
Definition known_flag (v : value) : value :=
  VInt (1 - (if isnull v then 1 else 0)).

(** [df["known"] = 1 - pd.isnull(pd.to_numeric(df["E"], errors="coerce"))] *)
Definition add_known (df : frame) : result frame :=
  e <- getcol "E" df ;;
  n <- to_numeric errors_coerce e ;;
  Ok (setcol "known" (map known_flag n) df).

(** [df[c] = pd.to_numeric(df[c].str.replace("#",""))] *)
Definition strip_marker (name : string) (df : frame) : result frame :=
  c <- getcol name df ;;
  s <- str_accessor c ;;
  n <- to_numeric errors_raise (series_str_replace "#" "" s) ;;
  Ok (setcol name n df).

(** [df[name] = df["N"] op df["Z"]] *)
Definition derive (name : string) (op : binop) (df : frame) : result frame :=
  n <- getcol "N" df ;;
  z <- getcol "Z" df ;;
  c <- series_arith op n z ;;
  Ok (setcol name c df).

Definition derive_columns (df : frame) : result frame :=
  df <- add_known df ;;
  df <- strip_marker "E" df ;;
  df <- strip_marker "U(E)" df ;;
  df <- derive "A" Add df ;;
  df <- derive "N-Z" Sub df ;;
  derive "N/Z" Div df.

(** ** The CSV writer ([df.to_csv(..., index=False)], parse.py line 27)

    A field of the file is carried as the value it prints; a missing
    value is printed as the empty field. *)

Inductive field : Type :=
| Empty
| Cell (v : value).

Record csv : Type := mk_csv {
  csv_header : list string;
  csv_rows : list (list field)
}.

Definition to_field (v : value) : field :=
  if isnull v then Empty else Cell v.

Definition row_at (df : frame) (i : nat) : list field :=
  map (fun '(_, c) => to_field (nth i c (VFloat NaN))) df.

Definition to_csv (df : frame) : csv :=
  {| csv_header := map fst df;
     csv_rows := map (row_at df) (seq 0 (nrows df)) |}.

(** The whole script. *)
Definition decoder (lines : list string) : result csv :=
  df <- read_fwf lines ;;
  df <- derive_columns df ;;
  Ok (to_csv df).

(** ** Row by row

    What the statements above amount to on one row, in terms of the raw
    fields of its line. *)

(** The [known] flag of a raw [E] field. *)
Definition known_of (raw : string) : Z :=
  if is_na raw then 0
  else match parse_number raw with
       | Some _ => 1
       | None => 0
       end.

(** The number a raw [E] or [U(E)] field stands for once its markers are
    stripped; [None] where the conversion raises. *)
Definition clean (raw : string) : option value :=
  if is_na raw then Some (VFloat NaN)
  else to_numeric1 (VStr (str_replace "#" "" raw)).

(** A value as stored in a column, up to the promotion of the column to
    [float64]. *)
Definition stored (v0 v : value) : Prop := v = v0 \/ v = to_float v0.

(** The value read from a raw [N] or [Z] field. *)
Definition read_as (raw : string) (v : value) : Prop :=
  v = object_field raw \/ exists v0, numeric_field raw = Some v0 /\ stored v0 v.

(** ** Synthetic input files

    A data line laid out on the fixed-width grid from its four fields,
    each right-aligned in its range, and a banner of [header + 1] lines
    in front of the data. *)

Fixpoint spaces (n : nat) : string :=
  match n with
  | O => EmptyString
  | S n' => String " " (spaces n')
  end.

Definition rjust (w : nat) (s : string) : string :=
  spaces (w - String.length s) ++ s.

Definition fwf_line (n z e u : string) : string :=
  spaces 4 ++ rjust 5 n ++ rjust 5 z ++ spaces 40 ++ rjust 13 e ++ spaces 1 ++ rjust 10 u.

Definition banner : list string := repeat "1N-Z    N    Z   A  EL" (S header).

(** ** The Surface Renderer (3d-plot.py)

    The frame returned by [pd.read_csv], as the list of its rows.  The
    key columns [N-Z] and [A] are integer columns, as the decoder writes
    them for a table whose [N] and [Z] fields are all present; keys of
    another dtype are outside this model.  The other columns are carried
    as read. *)

Record nuclide : Type := mk_nuclide {
  rec_N : value;
  rec_Z : value;
  rec_E : value;
  rec_UE : value;
  rec_known : value;
  rec_A : Z;
  rec_NmZ : Z;
  rec_NdZ : value
}.

Definition dataframe := list nuclide.

Definition set_E (v : value) (r : nuclide) : nuclide :=
  mk_nuclide (rec_N r) (rec_Z r) v (rec_UE r) (rec_known r)
             (rec_A r) (rec_NmZ r) (rec_NdZ r).

Definition set_UE (v : value) (r : nuclide) : nuclide :=
  mk_nuclide (rec_N r) (rec_Z r) (rec_E r) v (rec_known r)
             (rec_A r) (rec_NmZ r) (rec_NdZ r).

(** [df["E"] /= 1000] (line 14) *)
Definition convert_E (df : dataframe) : result dataframe :=
  mapM (fun r => v <- arith Div (rec_E r) (VInt 1000) ;; Ok (set_E v r)) df.

(** [df["U(E)"] /= 1000] (line 15) *)
Definition convert_UE (df : dataframe) : result dataframe :=
  mapM (fun r => v <- arith Div (rec_UE r) (VInt 1000) ;; Ok (set_UE v r)) df.

(** Sorted list of the distinct values of a key column. *)
Fixpoint insert_key (k : Z) (l : list Z) : list Z :=
  match l with
  | [] => [k]
  | x :: l' =>
      match k ?= x with
      | Lt => k :: l
      | Eq => l
      | Gt => x :: insert_key k l'
      end
  end.

Definition distinct_sorted (l : list Z) : list Z :=
  fold_right insert_key [] l.

Definition key_eqb (p q : Z * Z) : bool :=
  andb (fst p =? fst q) (snd p =? snd q).

Fixpoint has_duplicate (l : list (Z * Z)) : bool :=
  match l with
  | [] => false
  | p :: l' => orb (existsb (key_eqb p) l') (has_duplicate l')
  end.

Definition key_of (r : nuclide) : Z * Z := (rec_NmZ r, rec_A r).

(** The value of the cell [(nz, a)]: the [E] of the record with these
    keys, and missing when there is none. *)
Definition cell_value (df : dataframe) (nz a : Z) : value :=
  match find (fun r => key_eqb (key_of r) (nz, a)) df with
  | Some r => rec_E r
  | None => VFloat NaN
  end.

Record grid : Type := mk_grid {
  grid_index : list Z;
  grid_columns : list Z;
  grid_values : list (list value)
}.

(** [df.pivot(index="N-Z", columns="A", values="E")] (line 17): raises
    when two rows have the same pair of keys. *)
Definition pivot (df : dataframe) : result grid :=
  if has_duplicate (map key_of df) then Raise ValueError
  else
    let index := distinct_sorted (map rec_NmZ df) in
    let columns := distinct_sorted (map rec_A df) in
    Ok {| grid_index := index;
          grid_columns := columns;
          grid_values := map (fun nz => map (cell_value df nz) columns) index |}.

(** Position of a label on an axis of the grid. *)
Fixpoint position (k : Z) (l : list Z) : option nat :=
  match l with
  | [] => None
  | x :: l' =>
      if x =? k then Some O
      else match position k l' with
           | Some n => Some (S n)
           | None => None
           end
  end.

(** The cell of the grid in the row labelled [nz] and the column
    labelled [a]. *)
Definition grid_cell (g : grid) (nz a : Z) : option value :=
  match position nz (grid_index g), position a (grid_columns g) with
  | Some i, Some j =>
      match nth_error (grid_values g) i with
      | Some row => nth_error row j
      | None => None
      end
  | _, _ => None
  end.

(** What is handed to [ax.plot_surface] (lines 20-21). *)
Record surface : Type := mk_surface {
  xpos : list (list nat);
  ypos : list (list nat);
  zvalues : list (list value)
}.

(** [np.meshgrid(np.arange(ncols), np.arange(nrows))] *)
Definition meshgrid (ncols nrows : nat) : list (list nat) * list (list nat) :=
  (map (fun _ => seq 0 ncols) (seq 0 nrows),
   map (fun i => repeat i ncols) (seq 0 nrows)).

Section Renderer.

(** The exponential on finite floats is left abstract. *)
Variable exp_fin : Q -> float64.

Definition fexp (f : float64) : float64 :=
  match f with
  | Fin q => exp_fin q
  | PInf => PInf
  | NInf => Fin 0
  | NaN => NaN
  end.

(** [np.exp] on one value. *)
Definition np_exp (v : value) : result value :=
  match as_float v with
  | Some f => Ok (VFloat (fexp f))
  | None => Raise TypeError
  end.

Definition plot_surface (g : grid) : result surface :=
  let (xs, ys) := meshgrid (List.length (grid_columns g)) (List.length (grid_index g)) in
  zs <- mapM (mapM np_exp) (grid_values g) ;;
  Ok {| xpos := xs; ypos := ys; zvalues := zs |}.

(** The whole script. *)
Definition renderer (df : dataframe) : result surface :=
  df <- convert_E df ;;
  df <- convert_UE df ;;
  new_df <- pivot df ;;
  plot_surface new_df.

End Renderer.

(** The lines behind [data_rows]. *)
Definition data_lines (lines : list string) : list string :=
  skipn (S header) (filter (fun l => negb (is_empty_row (fwf_fields l))) lines).




(** A raw field that is not a missing-value token and, once its markers
    are stripped, is neither empty nor a numeric literal. *)
Definition unparsable (raw : string) : Prop :=
  is_na raw = false /\
  str_replace "#" "" raw <> "" /\
  parse_number (str_replace "#" "" raw) = None.


(** ** Sample inputs *)

Definition sample_file : list string :=
  banner ++ [fwf_line "1" "0" "-1234#" "5#";
             fwf_line "2" "2" "7073.915" "0.002";
             fwf_line "3" "2" "" ""].

Definition sample_na_file : list string :=
  banner ++ [fwf_line "1" "0" "-1234#" "5#";
             fwf_line "1" "1" "N/A" "0.5"].

Definition short_line : string := spaces 4 ++ rjust 5 "4" ++ rjust 5 "2".

Definition sample_short_file : list string :=
  banner ++ [fwf_line "1" "0" "-1234#" "5#"; short_line].

Definition sample_marker_file : list string :=
  banner ++ [fwf_line "6" "6" "12#34" "1#"; fwf_line "7" "6" "-1234##" "#2"].

Definition sample_bad_file : list string :=
  banner ++ [fwf_line "1" "0" "-1234#" "5#"; fwf_line "1" "1" "12*" "0.5"].

(** A record after both conversions: same keys, [E] divided by 1000. *)
Definition converted (r r' : nuclide) : Prop :=
  key_of r' = key_of r /\ arith Div (rec_E r) (VInt 1000) = Ok (rec_E r').

(** Two runs that end alike: both return, with related results, or both
    raise the same exception. *)
Definition same_outcome {A B : Type} (R : A -> B -> Prop)
           (m1 : result A) (m2 : result B) : Prop :=
  match m1, m2 with
  | Ok a, Ok b => R a b
  | Raise e1, Raise e2 => e1 = e2
  | _, _ => False
  end.

(** The three columns the plot is made from. *)
Definition plotted (r : nuclide) : Z * Z * value :=
  (rec_NmZ r, rec_A r, rec_E r).

(** The script up to and including the pivot (lines 11-17). *)
Definition pivoted (df : dataframe) : result grid :=
  df <- convert_E df ;;
  df <- convert_UE df ;;
  pivot df.

(** A frame whose [U(E)] column is numeric. *)
Definition numeric_UE (df : dataframe) : bool :=
  forallb (fun r => negb (is_str (rec_UE r))) df.

Definition sample_record (nz a : Z) (e ue : value) : nuclide :=
  {| rec_N := VInt ((a + nz) / 2); rec_Z := VInt ((a - nz) / 2);
     rec_E := e; rec_UE := ue; rec_known := VInt 1;
     rec_A := a; rec_NmZ := nz;
     rec_NdZ := VFloat NaN |}.

(** Two records sharing A = 20, and a third one elsewhere. *)
Definition sample_frame : dataframe :=
  [sample_record 0 20 (VFloat (Fin (8000 # 1))) (VFloat (Fin (1 # 2)));
   sample_record 4 20 (VFloat (Fin (7500 # 1))) (VFloat (Fin (1 # 2)));
   sample_record 2 18 (VInt 7000) (VFloat NaN)].

Definition sample_frame_text_UE : dataframe :=
  [sample_record 0 20 (VFloat (Fin (8000 # 1))) (VStr "abc");
   sample_record 4 20 (VFloat (Fin (7500 # 1))) (VStr "0.5");
   sample_record 2 18 (VInt 7000) (VFloat NaN)].

(** ** Further notions used in the statements *)

(** Every character of a string satisfies [p]. *)
Fixpoint all_chars (p : ascii -> bool) (s : string) : bool :=
  match s with
  | EmptyString => true
  | String c s' => andb (p c) (all_chars p s')
  end.

(** A character occurs in a string. *)
Fixpoint occurs (c : ascii) (s : string) : bool :=
  match s with
  | EmptyString => false
  | String x s' => orb (Ascii.eqb x c) (occurs c s')
  end.

(** A frame in which the column [E] or the column [U(E)] holds text. *)
Definition has_text (df : dataframe) : bool :=
  orb (existsb (fun r => is_str (rec_E r)) df)
      (existsb (fun r => is_str (rec_UE r)) df).

(** A rectangular array of the given shape. *)
Definition has_shape {A : Type} (nrows ncols : nat) (m : list (list A)) : Prop :=
  List.length m = nrows /\ Forall (fun row => List.length row = ncols) m.

(** An energy in MeV: the value divided by 1000, where that does not
    raise. *)
Definition scaled (v : value) : value :=
  match arith Div v (VInt 1000) with
  | Ok w => w
  | Raise _ => VFloat NaN
  end.

(** The cell [(nz, a)] of the grid, from the frame as read: the scaled
    [E] of the first record with these keys, missing when there is
    none. *)
Definition scaled_cell (df : dataframe) (nz a : Z) : value :=
  match find (fun r => key_eqb (key_of r) (nz, a)) df with
  | Some r => scaled (rec_E r)
  | None => VFloat NaN
  end.

(** The grid of a frame, from the frame as read. *)
Definition grid_of (df : dataframe) : grid :=
  let index := distinct_sorted (map rec_NmZ df) in
  let columns := distinct_sorted (map rec_A df) in
  {| grid_index := index;
     grid_columns := columns;
     grid_values := map (fun nz => map (scaled_cell df nz) columns) index |}.

(** The entry in row [i] and column [j] of an array. *)
Definition entry {A : Type} (m : list (list A)) (i j : nat) : option A :=
  match nth_error m i with
  | Some row => nth_error row j
  | None => None
  end.

(** A raw field the reader takes for a number or for a missing value. *)
Definition is_numeric_field (raw : string) : bool :=
  match numeric_field raw with
  | Some _ => true
  | None => false
  end.

(** The literals the reader takes for booleans. *)
Definition is_bool_literal (raw : string) : bool :=
  existsb (String.eqb raw) ["True"; "TRUE"; "true"; "False"; "FALSE"; "false"].

(** A raw field that is text: neither a missing-value token, nor a
    numeric literal, nor a boolean literal. *)
Definition is_text_field (raw : string) : bool :=
  andb (andb (negb (is_na raw)) (negb (is_numeric_field raw)))
       (negb (is_bool_literal raw)).

Definition sample_numeric_file : list string :=
  banner ++ [fwf_line "1" "0" "-1234" "5#"; fwf_line "2" "2" "7073.915" "0.002"].

Definition sample_text_count_file : list string :=
  banner ++ [fwf_line "1" "0" "-1234#" "5#"; fwf_line "N" "2" "7073.915" "0.002"].

Definition sample_duplicate_frame : dataframe :=
  [sample_record 0 20 (VFloat (Fin (8000 # 1))) (VFloat (Fin (1 # 2)));
   sample_record 0 20 (VFloat (Fin (8000 # 1))) (VFloat (Fin (1 # 2)))].

(** * Properties *)

(** ** Lists, [mapM] and [sequence] *)

Lemma Forall2_nth_error_l {A B : Type} (R : A -> B -> Prop) (l : list A) (r : list B) :
  Forall2 R l r ->
  forall i a, nth_error l i = Some a -> exists b, nth_error r i = Some b /\ R a b.
Proof.
  induction 1 as [|x y l r Hxy _ IH]; intros [|i] a Hi; simpl in *; try discriminate.
  - injection Hi as <-. eauto.
  - eauto.
Qed.

Lemma mapM_Forall2 {A B : Type} (f : A -> result B) (l : list A) (r : list B) :
  mapM f l = Ok r -> Forall2 (fun a b => f a = Ok b) l r.
Proof.
  revert r. induction l as [|a l IH]; intros r H; simpl in H.
  - injection H as <-. constructor.
  - destruct (f a) as [b|] eqn:Hb; simpl in H; try discriminate.
    destruct (mapM f l) as [bs|] eqn:Hbs; simpl in H; try discriminate.
    injection H as <-. constructor; auto.
Qed.

Lemma mapM_total {A B : Type} (f : A -> result B) (l : list A) :
  Forall (fun a => exists b, f a = Ok b) l -> exists r, mapM f l = Ok r.
Proof.
  induction 1 as [|a l [b Hb] _ [r Hr]]; simpl.
  - eauto.
  - rewrite Hb, Hr. simpl. eauto.
Qed.

Lemma sequence_none {A : Type} (l : list (option A)) :
  In None l -> sequence l = None.
Proof.
  induction l as [|[a|] l IH]; simpl; intros H; auto; try contradiction.
  destruct H as [H|H]; [discriminate|]. rewrite (IH H). reflexivity.
Qed.

Lemma sequence_map_Forall2 {A B : Type} (f : A -> option B) (l : list A) (r : list B) :
  sequence (map f l) = Some r -> Forall2 (fun a b => f a = Some b) l r.
Proof.
  revert r. induction l as [|a l IH]; intros r H; simpl in H.
  - injection H as <-. constructor.
  - destruct (f a) as [b|] eqn:Hb; try discriminate.
    destruct (sequence (map f l)) as [r'|]; try discriminate.
    injection H as <-. constructor; auto.
Qed.

(** ** Numeric literals, by example *)

Example parse_number_int_literal : parse_number "-1234" = Some (VInt (-1234)).
Proof. reflexivity. Qed.

Example parse_number_fraction : parse_number "7073.915" = Some (VFloat (Fin (1414783 # 200))).
Proof. reflexivity. Qed.

Example parse_number_exponent : parse_number "1.5e3" = Some (VFloat (Fin (1500 # 1))).
Proof. reflexivity. Qed.

Example parse_number_marker : parse_number "-1234#" = None.
Proof. reflexivity. Qed.

Example parse_number_spaces : parse_number " 12 " = Some (VInt 12).
Proof. reflexivity. Qed.

Example fwf_fields_sample :
  map (fun k => nth k (fwf_fields (fwf_line "1" "0" "-1234#" "5#")) "") usecols =
  ["1"; "0"; "-1234#"; "5#"].
Proof. reflexivity. Qed.

(** ** Promotion of numeric columns *)

Lemma isnull_to_float (v : value) : isnull (to_float v) = isnull v.
Proof. destruct v as [z|[]|s]; reflexivity. Qed.

Lemma promote_length (c : column) : List.length (promote c) = List.length c.
Proof. unfold promote. destruct (forallb is_int c); [reflexivity|apply length_map]. Qed.

Lemma promote_Forall2 (c : column) :
  Forall2 (fun v w => w = v \/ w = to_float v) c (promote c).
Proof.
  unfold promote. destruct (forallb is_int c).
  - induction c; constructor; auto.
  - induction c; simpl; constructor; auto.
Qed.

Lemma promote_no_str (c : column) :
  existsb is_str c = false -> existsb is_str (promote c) = false.
Proof.
  unfold promote. destruct (forallb is_int c); auto.
  induction c as [|v c IH]; simpl; auto.
  intros H. apply orb_false_iff in H as [Hv Hc].
  rewrite (IH Hc). destruct v; simpl in *; auto.
Qed.

(** ** Numeric literals *)

Lemma decimal_float (m e : Z) (v : value) :
  decimal m e = Some v -> exists q, v = VFloat (Fin q).
Proof.
  unfold decimal. destruct (308 <? e); [discriminate|].
  destruct (e <? -616); [intros H; injection H as <-; eauto|].
  cbv zeta. destruct (Qle_bool overflow_threshold _); [discriminate|].
  destruct (Qle_bool _ underflow_threshold); intros H; injection H as <-; eauto.
Qed.

Lemma parse_literal_not_str (s : string) (v : value) :
  parse_literal s = Some v -> is_str v = false /\ isnull v = false.
Proof.
  unfold parse_literal.
  destruct (take_sign s) as [neg s1].
  destruct (take_digits 0 s1) as [[ip ni] s2].
  assert (Hd : forall m e, decimal m e = Some v -> is_str v = false /\ isnull v = false).
  { intros m e H. apply decimal_float in H as [q ->]. auto. }
  destruct s2 as [|c s3].
  - destruct ni; intros H; inversion H; auto.
  - destruct (Ascii.eqb_spec c "."%char) as [->|Hc].
    + destruct (take_digits ip s3) as [[m nf] s4].
      destruct (ni + nf)%nat; [discriminate|].
      destruct (parse_exponent s4); [apply Hd|discriminate].
    + assert (Hgen : match ni with
                     | O => None
                     | S _ => match parse_exponent (String c s3) with
                              | Some e => decimal (signed neg ip) (wrap32 e)
                              | None => None
                              end
                     end = Some v -> is_str v = false /\ isnull v = false).
      { destruct ni; [discriminate|].
        destruct (parse_exponent (String c s3)); [apply Hd|discriminate]. }
      destruct c as [[] [] [] [] [] [] [] []]; try exact Hgen; congruence.
Qed.

Lemma parse_infinity_float (s : string) (v : value) :
  parse_infinity s = Some v -> v = VFloat PInf \/ v = VFloat NInf.
Proof.
  unfold parse_infinity. cbv zeta.
  destruct (existsb _ _); [intros H; injection H as <-; auto|].
  destruct (existsb _ _); [intros H; injection H as <-; auto|discriminate].
Qed.

Lemma parse_number_not_str (s : string) (v : value) :
  parse_number s = Some v -> is_str v = false /\ isnull v = false.
Proof.
  unfold parse_number.
  destruct (parse_literal (strip isspace s)) as [w|] eqn:Hl.
  - intros H; injection H as <-. eapply parse_literal_not_str; eauto.
  - intros H. apply parse_infinity_float in H as [-> | ->]; auto.
Qed.

Example literal_out_of_range :
  parse_number "1e400" = None /\ parse_number "9e308" = None /\
  parse_number "1e-700" = Some (VFloat (Fin (0 # 1))).
Proof. repeat split; vm_compute; reflexivity. Qed.

Example literal_infinity :
  parse_number "inf" = Some (VFloat PInf) /\
  parse_number "-Infinity" = Some (VFloat NInf) /\
  parse_number " inf" = None /\ parse_number "nan" = None.
Proof. repeat split; vm_compute; reflexivity. Qed.

Lemma numeric_field_not_str (s : string) (v : value) :
  numeric_field s = Some v -> is_str v = false.
Proof.
  unfold numeric_field. destruct (is_na s).
  - intros H; inversion H; reflexivity.
  - intros H. apply parse_number_not_str in H. tauto.
Qed.

(** ** The decoder, statement by statement *)

Arguments to_numeric : simpl never.
Arguments str_accessor : simpl never.
Arguments series_arith : simpl never.
Arguments series_str_replace : simpl never.

Lemma read_fwf_eq (lines : list string) :
  read_fwf lines =
  if Nat.leb (List.length (file_rows lines)) header then Raise ValueError
  else Ok [("N", infer_types (raw_column 2 lines));
           ("Z", infer_types (raw_column 3 lines));
           ("E", infer_types (raw_column 11 lines));
           ("U(E)", infer_types (raw_column 13 lines))].
Proof. reflexivity. Qed.

Lemma derive_columns_eq (cN cZ cE cU : column) :
  derive_columns [("N", cN); ("Z", cZ); ("E", cE); ("U(E)", cU)] =
  (s <- str_accessor cE ;;
   e <- to_numeric errors_raise (series_str_replace "#" "" s) ;;
   t <- str_accessor cU ;;
   u <- to_numeric errors_raise (series_str_replace "#" "" t) ;;
   a <- series_arith Add cN cZ ;;
   d <- series_arith Sub cN cZ ;;
   r <- series_arith Div cN cZ ;;
   Ok [("N", cN); ("Z", cZ); ("E", e); ("U(E)", u);
       ("known", map known_flag (promote (map coerced cE))); ("A", a); ("N-Z", d); ("N/Z", r)]).
Proof.
  unfold derive_columns, add_known, strip_marker, derive. simpl.
  destruct (str_accessor cE) as [s|]; simpl; [|reflexivity].
  destruct (to_numeric errors_raise (series_str_replace "#" "" s)) as [e|]; simpl; [|reflexivity].
  destruct (str_accessor cU) as [t|]; simpl; [|reflexivity].
  destruct (to_numeric errors_raise (series_str_replace "#" "" t)) as [u|]; simpl; [|reflexivity].
  destruct (series_arith Add cN cZ) as [a|]; simpl; [|reflexivity].
  destruct (series_arith Sub cN cZ) as [d|]; simpl; [|reflexivity].
  destruct (series_arith Div cN cZ) as [r|]; simpl; reflexivity.
Qed.

Lemma infer_types_length (l : list string) :
  List.length (infer_types l) = List.length l.
Proof.
  unfold infer_types.
  destruct (sequence (map numeric_field l)) as [vs|] eqn:H.
  - rewrite promote_length. apply sequence_map_Forall2 in H.
    symmetry. eapply Forall2_length; eauto.
  - apply length_map.
Qed.

Lemma no_str_of_numeric (l : list string) (vs : column) :
  Forall2 (fun a b => numeric_field a = Some b) l vs -> existsb is_str vs = false.
Proof.
  induction 1 as [|a b l vs Hab _ IH]; simpl; auto.
  rewrite (numeric_field_not_str _ _ Hab), IH. reflexivity.
Qed.

(** A column on which [.str] works and that has a row was read as a
    column of strings. *)
Lemma infer_types_object (l : list string) :
  l <> [] -> is_object (infer_types l) = true -> infer_types l = map object_field l.
Proof.
  intros Hl. unfold infer_types.
  destruct (sequence (map numeric_field l)) as [vs|] eqn:H; auto.
  apply sequence_map_Forall2 in H.
  pose proof (promote_no_str _ (no_str_of_numeric _ _ H)) as Hns.
  pose proof (promote_length vs) as Hlen.
  rewrite <- (Forall2_length H) in Hlen.
  unfold is_object. destruct (promote vs) as [|v c] eqn:Hp.
  - destruct l; [congruence|discriminate].
  - rewrite Hns. discriminate.
Qed.

(** A numeric column has no [.str] accessor. *)
Lemma infer_types_numeric (l : list string) (vs : column) :
  l <> [] -> sequence (map numeric_field l) = Some vs ->
  str_accessor (infer_types l) = Raise AttributeError.
Proof.
  intros Hl H. unfold str_accessor, infer_types. rewrite H.
  apply sequence_map_Forall2 in H.
  pose proof (promote_no_str _ (no_str_of_numeric _ _ H)) as Hns.
  pose proof (promote_length vs) as Hlen.
  rewrite <- (Forall2_length H) in Hlen.
  unfold is_object. destruct (promote vs) as [|v c] eqn:Hp.
  - destruct l; [congruence|discriminate].
  - rewrite Hns. reflexivity.
Qed.

Lemma to_numeric_raise_Forall2 (c n : column) :
  to_numeric errors_raise c = Ok n ->
  exists vs, Forall2 (fun v v0 => to_numeric1 v = Some v0) c vs /\ n = promote vs.
Proof.
  unfold to_numeric.
  destruct (sequence (map to_numeric1 c)) as [vs|] eqn:H; [|discriminate].
  intros E; injection E as <-. exists vs. split; auto.
  apply sequence_map_Forall2; assumption.
Qed.

Lemma series_arith_Forall2 (op : binop) (a b c : column) :
  series_arith op a b = Ok c ->
  Forall2 (fun xy v => arith op (fst xy) (snd xy) = Ok v) (combine a b) c.
Proof.
  unfold series_arith. intros H. apply mapM_Forall2 in H.
  eapply Forall2_impl; [|exact H]. intros [x y] v Hv; exact Hv.
Qed.

Lemma nth_error_combine {A B : Type} (a : list A) (b : list B) (i : nat) (x : A) (y : B) :
  nth_error a i = Some x -> nth_error b i = Some y ->
  nth_error (combine a b) i = Some (x, y).
Proof.
  revert b i. induction a as [|x0 a IH]; intros [|y0 b] [|i]; simpl; try discriminate.
  - intros Hx Hy. injection Hx as ->. injection Hy as ->. reflexivity.
  - apply IH.
Qed.

Lemma nth_error_map_some {A B : Type} (f : A -> B) (l : list A) (i : nat) (a : A) :
  nth_error l i = Some a -> nth_error (map f l) i = Some (f a).
Proof. intros H. rewrite nth_error_map, H. reflexivity. Qed.

Lemma str_accessor_ok (c s : column) :
  str_accessor c = Ok s -> s = c /\ is_object c = true.
Proof.
  unfold str_accessor. destruct (is_object c); [|discriminate].
  intros H; injection H as <-. auto.
Qed.

(** What a successful run went through. *)
Lemma decoder_inv (lines : list string) (out : csv) :
  decoder lines = Ok out ->
  let cN := infer_types (raw_column 2 lines) in
  let cZ := infer_types (raw_column 3 lines) in
  let cE := infer_types (raw_column 11 lines) in
  let cU := infer_types (raw_column 13 lines) in
  exists e u a d r,
    is_object cE = true /\
    to_numeric errors_raise (series_str_replace "#" "" cE) = Ok e /\
    is_object cU = true /\
    to_numeric errors_raise (series_str_replace "#" "" cU) = Ok u /\
    series_arith Add cN cZ = Ok a /\
    series_arith Sub cN cZ = Ok d /\
    series_arith Div cN cZ = Ok r /\
    out = to_csv [("N", cN); ("Z", cZ); ("E", e); ("U(E)", u);
                  ("known", map known_flag (promote (map coerced cE)));
                  ("A", a); ("N-Z", d); ("N/Z", r)].
Proof.
  intros H cN cZ cE cU. unfold decoder in H. rewrite read_fwf_eq in H.
  destruct (Nat.leb (List.length (file_rows lines)) header); [discriminate|].
  cbn [bind] in H. rewrite derive_columns_eq in H.
  fold cN cZ cE cU in H.
  destruct (str_accessor cE) as [s|] eqn:HsE; [|discriminate].
  apply str_accessor_ok in HsE as [-> HoE]. cbn [bind] in H.
  destruct (to_numeric errors_raise (series_str_replace "#" "" cE)) as [e|] eqn:He;
    [|discriminate]. cbn [bind] in H.
  destruct (str_accessor cU) as [t|] eqn:HsU; [|discriminate].
  apply str_accessor_ok in HsU as [-> HoU]. cbn [bind] in H.
  destruct (to_numeric errors_raise (series_str_replace "#" "" cU)) as [u|] eqn:Hu;
    [|discriminate]. cbn [bind] in H.
  destruct (series_arith Add cN cZ) as [a|] eqn:Ha; [|discriminate]. cbn [bind] in H.
  destruct (series_arith Sub cN cZ) as [d|] eqn:Hd; [|discriminate]. cbn [bind] in H.
  destruct (series_arith Div cN cZ) as [r|] eqn:Hr; [|discriminate]. cbn [bind] in H.
  injection H as <-. exists e, u, a, d, r. repeat split; auto.
Qed.

Lemma raw_column_nth (k : nat) (lines : list string) (i : nat) (fields : list string) :
  nth_error (data_rows lines) i = Some fields ->
  nth_error (raw_column k lines) i = Some (nth k fields "").
Proof. intros H. unfold raw_column. rewrite nth_error_map, H. reflexivity. Qed.

Lemma raw_column_length (k : nat) (lines : list string) :
  List.length (raw_column k lines) = List.length (data_rows lines).
Proof. apply length_map. Qed.

Lemma infer_types_nth (l : list string) (i : nat) (raw : string) :
  nth_error l i = Some raw ->
  exists v, nth_error (infer_types l) i = Some v /\ read_as raw v.
Proof.
  intros Hi. unfold infer_types.
  destruct (sequence (map numeric_field l)) as [vs|] eqn:H.
  - apply sequence_map_Forall2 in H.
    destruct (Forall2_nth_error_l _ _ _ H _ _ Hi) as (v0 & Hv0 & Hn).
    destruct (Forall2_nth_error_l _ _ _ (promote_Forall2 vs) _ _ Hv0) as (v & Hv & Hst).
    exists v. split; auto. right. exists v0. split; auto.
  - exists (object_field raw). split; [|left; reflexivity].
    apply nth_error_map_some; assumption.
Qed.

Lemma known_flag_stored (v0 v : value) : stored v0 v -> known_flag v = known_flag v0.
Proof.
  intros [->| ->]; auto. unfold known_flag. rewrite isnull_to_float. reflexivity.
Qed.

Lemma known_flag_object_field (raw : string) :
  known_flag (coerced (object_field raw)) = VInt (known_of raw).
Proof.
  unfold object_field, known_of. destruct (is_na raw) eqn:Hna; [reflexivity|].
  destruct raw as [|c raw]; [discriminate|].
  unfold coerced, to_numeric1.
  destruct (parse_number (String c raw)) as [x|] eqn:Hp; [|reflexivity].
  apply parse_number_not_str in Hp as [_ Hx].
  unfold known_flag. rewrite Hx. reflexivity.
Qed.

Lemma clean_object_field (raw : string) :
  to_numeric1 match object_field raw with
              | VStr s => VStr (str_replace "#" "" s)
              | _ => VFloat NaN
              end = clean raw.
Proof. unfold object_field, clean. destruct (is_na raw); reflexivity. Qed.

Lemma nth_error_nth_default {A : Type} (l : list A) (i : nat) (a d : A) :
  nth_error l i = Some a -> nth i l d = a.
Proof. intros H. apply nth_error_nth; assumption. Qed.

Lemma nth_error_map_seq {A : Type} (f : nat -> A) (n i : nat) (a : A) :
  nth_error (map f (seq 0 n)) i = Some a -> (i < n)%nat /\ a = f i.
Proof.
  intros H. rewrite nth_error_map in H.
  destruct (nth_error (seq 0 n) i) as [j|] eqn:Hj; [|discriminate].
  injection H as <-.
  pose proof (nth_error_Some (seq 0 n) i) as Hlt.
  rewrite Hj, length_seq in Hlt.
  assert (i < n)%nat by (apply Hlt; discriminate).
  split; auto.
  apply nth_error_nth_default with (d := O) in Hj.
  rewrite seq_nth in Hj by assumption. simpl in Hj. subst j. reflexivity.
Qed.

(** The header of the file written by a successful run, and its rows in
    terms of the columns. *)
Lemma decoder_header (lines : list string) (out : csv) :
  decoder lines = Ok out ->
  csv_header out = ["N"; "Z"; "E"; "U(E)"; "known"; "A"; "N-Z"; "N/Z"].
Proof.
  intros H. apply decoder_inv in H as (e & u & a & d & r & H).
  decompose [and] H. subst out. reflexivity.
Qed.

Lemma decoder_length (lines : list string) (out : csv) :
  decoder lines = Ok out ->
  List.length (csv_rows out) = List.length (data_rows lines).
Proof.
  intros H. apply decoder_inv in H as (e & u & a & d & r & H).
  decompose [and] H. subst out. unfold to_csv, csv_rows, nrows.
  rewrite length_map, length_seq, infer_types_length. apply raw_column_length.
Qed.

(** One row of the output against the line it was read from. *)
Lemma decoder_row (lines : list string) (out : csv) (i : nat)
      (fields : list string) (row : list field) :
  decoder lines = Ok out ->
  nth_error (data_rows lines) i = Some fields ->
  nth_error (csv_rows out) i = Some row ->
  exists vN vZ vE vU vA vD vR e0 u0,
    row = [to_field vN; to_field vZ; to_field vE; to_field vU;
           to_field (VInt (known_of (nth 11 fields "")));
           to_field vA; to_field vD; to_field vR] /\
    read_as (nth 2 fields "") vN /\
    read_as (nth 3 fields "") vZ /\
    clean (nth 11 fields "") = Some e0 /\ stored e0 vE /\
    clean (nth 13 fields "") = Some u0 /\ stored u0 vU /\
    arith Add vN vZ = Ok vA /\
    arith Sub vN vZ = Ok vD /\
    arith Div vN vZ = Ok vR.
Proof.
  intros H Hf Hrow.
  apply decoder_inv in H as (e & u & a & d & r & HoE & He & HoU & Hu & Ha & Hd & Hr & ->).
  assert (Hne : forall k, raw_column k lines <> []).
  { intros k Hk. pose proof (raw_column_nth k _ _ _ Hf) as Hn.
    rewrite Hk in Hn. destruct i; discriminate. }
  destruct (infer_types_nth _ _ _ (raw_column_nth 2 _ _ _ Hf)) as (vN & HvN & HrN).
  destruct (infer_types_nth _ _ _ (raw_column_nth 3 _ _ _ Hf)) as (vZ & HvZ & HrZ).
  (* the energy columns were read as strings *)
  pose proof (infer_types_object _ (Hne 11%nat) HoE) as HcE.
  pose proof (infer_types_object _ (Hne 13%nat) HoU) as HcU.
  rewrite HcE in He, Hrow. rewrite HcU in Hu.
  pose proof (nth_error_map_some object_field _ _ _ (raw_column_nth 11 _ _ _ Hf)) as HiE.
  pose proof (nth_error_map_some object_field _ _ _ (raw_column_nth 13 _ _ _ Hf)) as HiU.
  apply to_numeric_raise_Forall2 in He as (es & Hes & ->).
  apply to_numeric_raise_Forall2 in Hu as (us & Hus & ->).
  unfold series_str_replace in Hes, Hus.
  destruct (Forall2_nth_error_l _ _ _ Hes _ _ (nth_error_map_some _ _ _ _ HiE))
    as (e0 & He0 & Hce).
  destruct (Forall2_nth_error_l _ _ _ Hus _ _ (nth_error_map_some _ _ _ _ HiU))
    as (u0 & Hu0 & Hcu).
  rewrite clean_object_field in Hce, Hcu.
  destruct (Forall2_nth_error_l _ _ _ (promote_Forall2 es) _ _ He0) as (vE & HvE & HsE).
  destruct (Forall2_nth_error_l _ _ _ (promote_Forall2 us) _ _ Hu0) as (vU & HvU & HsU).
  (* the known flag *)
  pose proof (nth_error_map_some coerced _ _ _ HiE) as Hk0.
  destruct (Forall2_nth_error_l _ _ _ (promote_Forall2 _) _ _ Hk0) as (vk & Hvk & Hsk).
  pose proof (nth_error_map_some known_flag _ _ _ Hvk) as HvK.
  rewrite (known_flag_stored _ _ Hsk), known_flag_object_field in HvK.
  (* the derived columns *)
  pose proof (nth_error_combine _ _ _ _ _ HvN HvZ) as Hnz.
  destruct (Forall2_nth_error_l _ _ _ (series_arith_Forall2 _ _ _ _ Ha) _ _ Hnz)
    as (vA & HvA & HaA).
  destruct (Forall2_nth_error_l _ _ _ (series_arith_Forall2 _ _ _ _ Hd) _ _ Hnz)
    as (vD & HvD & HaD).
  destruct (Forall2_nth_error_l _ _ _ (series_arith_Forall2 _ _ _ _ Hr) _ _ Hnz)
    as (vR & HvR & HaR).
  simpl in HaA, HaD, HaR.
  exists vN, vZ, vE, vU, vA, vD, vR, e0, u0.
  repeat split; auto.
  unfold to_csv, csv_rows in Hrow.
  apply nth_error_map_seq in Hrow as [_ ->].
  unfold row_at. cbn [map].
  rewrite (nth_error_nth_default _ _ _ (VFloat NaN) HvN),
          (nth_error_nth_default _ _ _ (VFloat NaN) HvZ),
          (nth_error_nth_default _ _ _ (VFloat NaN) HvE),
          (nth_error_nth_default _ _ _ (VFloat NaN) HvU),
          (nth_error_nth_default _ _ _ (VFloat NaN) HvK),
          (nth_error_nth_default _ _ _ (VFloat NaN) HvA),
          (nth_error_nth_default _ _ _ (VFloat NaN) HvD),
          (nth_error_nth_default _ _ _ (VFloat NaN) HvR).
  reflexivity.
Qed.

(** ** The [known] flag *)

(** C1, as stated, fails: a row whose raw [E] field is ["-1234#"] is
    written with [known = 0], not [1], because the flag is computed from
    the field with its marker still in place. *)
Lemma known_marker_counterexample :
  exists out row,
    decoder sample_file = Ok out /\
    nth 11 (nth 0 (data_rows sample_file) []) "" = "-1234#" /\
    nth_error (csv_rows out) 0 = Some row /\
    nth 4 row Empty = Cell (VInt 0) /\
    nth 4 row Empty <> Cell (VInt 1).
Proof.
  eexists. eexists.
  split; [vm_compute; reflexivity|].
  split; [vm_compute; reflexivity|].
  split; [vm_compute; reflexivity|].
  split; [reflexivity|discriminate].
Qed.

(** C1, amended: on every row of a completed run, [known] is [0] exactly
    when the raw [E] field, with its marker still in place, is a
    missing-value token (blank included) or is not a numeric literal, and
    is [1] otherwise; a raw field ["-1234#"] yields [known = 0] and
    [E = -1234]. *)
Theorem known_reflects_raw_field (lines : list string) (out : csv) (i : nat)
        (fields : list string) (row : list field) :
  decoder lines = Ok out ->
  nth_error (data_rows lines) i = Some fields ->
  nth_error (csv_rows out) i = Some row ->
  let raw := nth 11 fields "" in
  (nth 4 row Empty = Cell (VInt 0) <-> is_na raw = true \/ parse_number raw = None) /\
  (nth 4 row Empty = Cell (VInt 0) \/ nth 4 row Empty = Cell (VInt 1)) /\
  (raw = "-1234#" ->
   nth 4 row Empty = Cell (VInt 0) /\
   (nth 2 row Empty = Cell (VInt (-1234)) \/
    nth 2 row Empty = Cell (VFloat (fin_of_Z (-1234))))).
Proof.
  intros H Hf Hrow raw.
  destruct (decoder_row _ _ _ _ _ H Hf Hrow)
    as (vN & vZ & vE & vU & vA & vD & vR & e0 & u0 & -> & _ & _ & He0 & HsE & _).
  fold raw in He0. cbn [nth].
  change (to_field (VInt (known_of (nth 11 fields "")))) with (Cell (VInt (known_of raw))).
  assert (Hk : known_of raw = 0 <-> is_na raw = true \/ parse_number raw = None).
  { unfold known_of. destruct (is_na raw); [intuition|].
    destruct (parse_number raw); split; intros; try reflexivity; try discriminate;
      intuition discriminate. }
  assert (Hk01 : known_of raw = 0 \/ known_of raw = 1).
  { unfold known_of. destruct (is_na raw); auto. destruct (parse_number raw); auto. }
  split; [|split].
  - rewrite <- Hk. split; [intros E; injection E; auto|intros ->; reflexivity].
  - destruct Hk01 as [-> | ->]; auto.
  - intros Hraw. rewrite Hraw in He0 |- *. split; [reflexivity|].
    vm_compute in He0. injection He0 as <-.
    destruct HsE as [-> | ->]; [left|right]; reflexivity.
Qed.

Lemma known_reflects_raw_field_witness :
  exists out fields row,
    decoder sample_file = Ok out /\
    nth_error (data_rows sample_file) 0 = Some fields /\
    nth_error (csv_rows out) 0 = Some row /\
    nth 11 fields "" = "-1234#" /\
    nth 4 row Empty = Cell (VInt 0) /\
    (nth 2 row Empty = Cell (VInt (-1234)) \/
     nth 2 row Empty = Cell (VFloat (fin_of_Z (-1234)))).
Proof.
  eexists. eexists. eexists.
  split; [vm_compute; reflexivity|].
  split; [vm_compute; reflexivity|].
  split; [vm_compute; reflexivity|].
  split; [reflexivity|].
  refine (proj2 (proj2 (known_reflects_raw_field sample_file _ 0 _ _ _ _ _)) _);
    vm_compute; reflexivity.
Defined.

(** ** Rows and header of the output *)

Lemma stored_nan (v : value) : stored (VFloat NaN) v -> v = VFloat NaN.
Proof. intros [->| ->]; reflexivity. Qed.

(** C3: a completed run writes exactly one row per data row of the input
    (the non-empty rows after the header), in the order of the input: row
    [i] of the output carries the [N] and [Z] read from data row [i]; and
    a row whose raw [E] field is blank is kept, with [known = 0] and an
    empty [E] field. *)
Theorem no_record_dropped (lines : list string) (out : csv) :
  decoder lines = Ok out ->
  List.length (csv_rows out) = List.length (data_rows lines) /\
  forall i fields,
    nth_error (data_rows lines) i = Some fields ->
    exists row vN vZ,
      nth_error (csv_rows out) i = Some row /\
      nth 0 row Empty = to_field vN /\ read_as (nth 2 fields "") vN /\
      nth 1 row Empty = to_field vZ /\ read_as (nth 3 fields "") vZ /\
      (nth 11 fields "" = "" ->
       nth 4 row Empty = Cell (VInt 0) /\ nth 2 row Empty = Empty).
Proof.
  intros H. pose proof (decoder_length _ _ H) as Hlen. split; auto.
  intros i fields Hf.
  assert (Hi : (i < List.length (csv_rows out))%nat).
  { rewrite Hlen. apply nth_error_Some. congruence. }
  destruct (nth_error (csv_rows out) i) as [row|] eqn:Hrow;
    [|apply nth_error_Some in Hi; contradiction].
  destruct (decoder_row _ _ _ _ _ H Hf Hrow)
    as (vN & vZ & vE & vU & vA & vD & vR & e0 & u0 & -> & HrN & HrZ & He0 & HsE & _).
  exists [to_field vN; to_field vZ; to_field vE; to_field vU;
          to_field (VInt (known_of (nth 11 fields ""))); to_field vA; to_field vD;
          to_field vR], vN, vZ.
  repeat split; auto.
  - rewrite H0. reflexivity.
  - rewrite H0 in He0. vm_compute in He0. injection He0 as <-.
    apply stored_nan in HsE. subst vE. reflexivity.
Qed.

Lemma no_record_dropped_witness :
  exists out,
    decoder sample_file = Ok out /\
    List.length (csv_rows out) = 3%nat /\
    exists row,
      nth_error (csv_rows out) 2 = Some row /\
      nth 4 row Empty = Cell (VInt 0) /\ nth 2 row Empty = Empty.
Proof.
  eexists. split; [vm_compute; reflexivity|].
  split; [exact (proj1 (no_record_dropped sample_file _ eq_refl))|].
  destruct (proj2 (no_record_dropped sample_file _ eq_refl) 2%nat _ eq_refl)
    as (row & vN & vZ & Hrow & _ & _ & _ & _ & Hblank).
  exists row. split; [exact Hrow|]. apply Hblank. reflexivity.
Defined.

(** C4, as stated, fails: the header names eight columns, not nine. *)
Lemma header_counterexample :
  exists out,
    decoder sample_file = Ok out /\
    List.length (csv_header out) = 8%nat /\
    List.length (csv_header out) <> 9%nat.
Proof.
  eexists. split; [vm_compute; reflexivity|].
  split; [reflexivity|discriminate].
Qed.

(** C4, amended: the file written by a completed run begins with a header
    naming the eight columns N, Z, E, U(E), known, A, N-Z, N/Z, in this
    order, and every row has exactly eight fields (there is no index
    column). *)
Theorem header_names_eight_columns (lines : list string) (out : csv) :
  decoder lines = Ok out ->
  csv_header out = ["N"; "Z"; "E"; "U(E)"; "known"; "A"; "N-Z"; "N/Z"] /\
  forall row, In row (csv_rows out) -> List.length row = 8%nat.
Proof.
  intros H. split; [exact (decoder_header _ _ H)|].
  intros row Hin.
  apply decoder_inv in H as (e & u & a & d & r & H).
  decompose [and] H. subst out. unfold to_csv, csv_rows in Hin.
  apply in_map_iff in Hin as (i & <- & _). reflexivity.
Qed.

Lemma header_names_eight_columns_witness :
  exists out,
    decoder sample_file = Ok out /\
    csv_header out = ["N"; "Z"; "E"; "U(E)"; "known"; "A"; "N-Z"; "N/Z"].
Proof.
  eexists. split; [vm_compute; reflexivity|].
  exact (proj1 (header_names_eight_columns sample_file _ eq_refl)).
Defined.

(** ** Division by zero *)




Lemma decoder_eq (lines : list string) :
  decoder lines =
  if Nat.leb (List.length (file_rows lines)) header then Raise ValueError
  else
    let cN := infer_types (raw_column 2 lines) in
    let cZ := infer_types (raw_column 3 lines) in
    let cE := infer_types (raw_column 11 lines) in
    let cU := infer_types (raw_column 13 lines) in
    (s <- str_accessor cE ;;
     e <- to_numeric errors_raise (series_str_replace "#" "" s) ;;
     t <- str_accessor cU ;;
     u <- to_numeric errors_raise (series_str_replace "#" "" t) ;;
     a <- series_arith Add cN cZ ;;
     d <- series_arith Sub cN cZ ;;
     r <- series_arith Div cN cZ ;;
     Ok (to_csv [("N", cN); ("Z", cZ); ("E", e); ("U(E)", u);
                 ("known", map known_flag (promote (map coerced cE)));
                 ("A", a); ("N-Z", d); ("N/Z", r)])).
Proof.
  unfold decoder. rewrite read_fwf_eq.
  destruct (Nat.leb (List.length (file_rows lines)) header); [reflexivity|].
  cbn [bind]. rewrite derive_columns_eq. cbv zeta.
  destruct (str_accessor _) as [s|]; cbn [bind]; [|reflexivity].
  destruct (to_numeric errors_raise (series_str_replace "#" "" s)) as [e|]; cbn [bind]; [|reflexivity].
  destruct (str_accessor _) as [t|]; cbn [bind]; [|reflexivity].
  destruct (to_numeric errors_raise (series_str_replace "#" "" t)) as [u|]; cbn [bind]; [|reflexivity].
  destruct (series_arith Add _ _) as [a|]; cbn [bind]; [|reflexivity].
  destruct (series_arith Sub _ _) as [d|]; cbn [bind]; [|reflexivity].
  destruct (series_arith Div _ _) as [r|]; cbn [bind]; reflexivity.
Qed.





(** The row N = 1, Z = 0 of the sample is written with N/Z = inf. *)
Example ratio_one_over_zero :
  exists out,
    decoder sample_file = Ok out /\
    nth_error (csv_rows out) 0 =
    Some [Cell (VInt 1); Cell (VInt 0); Cell (VFloat (Fin (-1234 # 1)));
          Cell (VFloat (Fin (5 # 1))); Cell (VInt 0); Cell (VInt 1); Cell (VInt 1);
          Cell (VFloat PInf)].
Proof. eexists. split; vm_compute; reflexivity. Qed.

(** ** Fields that are not numbers *)

Lemma data_row_enough_rows (lines : list string) (i : nat) (fields : list string) :
  nth_error (data_rows lines) i = Some fields ->
  Nat.leb (List.length (file_rows lines)) header = false.
Proof.
  intros H. apply Nat.leb_gt. unfold data_rows in H.
  assert (Hlt : (i < List.length (skipn (S header) (file_rows lines)))%nat)
    by (apply nth_error_Some; congruence).
  rewrite length_skipn in Hlt. lia.
Qed.

Lemma to_numeric_raise_fails (c : column) (i : nat) (v : value) :
  nth_error c i = Some v -> to_numeric1 v = None ->
  to_numeric errors_raise c = Raise ValueError.
Proof.
  intros Hi Hv. unfold to_numeric.
  rewrite sequence_none; [reflexivity|].
  rewrite <- Hv. apply in_map. eapply nth_error_In; eauto.
Qed.

Lemma to_numeric_raise_cases (c : column) :
  (exists n, to_numeric errors_raise c = Ok n) \/
  to_numeric errors_raise c = Raise ValueError.
Proof.
  unfold to_numeric. destruct (sequence (map to_numeric1 c)); eauto.
Qed.

Lemma str_accessor_cases (c : column) :
  str_accessor c = Ok c \/ str_accessor c = Raise AttributeError.
Proof. unfold str_accessor. destruct (is_object c); auto. Qed.

Lemma unparsable_clean (raw : string) : unparsable raw -> clean raw = None.
Proof.
  intros (Hna & Hne & Hp). unfold clean. rewrite Hna.
  unfold to_numeric1. destruct (str_replace "#" "" raw); [congruence|exact Hp].
Qed.

(** Stripping the markers of a column that holds an unparsable field
    raises. *)
Lemma strip_unparsable (l : list string) (i : nat) (raw : string) :
  nth_error l i = Some raw -> unparsable raw ->
  (s <- str_accessor (infer_types l) ;;
   to_numeric errors_raise (series_str_replace "#" "" s)) = Raise ValueError \/
  (s <- str_accessor (infer_types l) ;;
   to_numeric errors_raise (series_str_replace "#" "" s)) = Raise AttributeError.
Proof.
  intros Hi Hbad.
  assert (Hl : l <> []) by (intros ->; destruct i; discriminate).
  unfold str_accessor. destruct (is_object (infer_types l)) eqn:Hobj; [|right; reflexivity].
  left. cbn [bind]. rewrite (infer_types_object _ Hl Hobj).
  eapply to_numeric_raise_fails.
  - unfold series_str_replace.
    apply nth_error_map_some, nth_error_map_some. exact Hi.
  - rewrite clean_object_field. apply unparsable_clean. assumption.
Qed.

(** C6, as stated, fails: a field holding the token N/A is not blank and
    is not a number once markers are stripped, yet the run completes and
    the field is written as missing. *)
Lemma unparsable_field_counterexample :
  exists out row,
    decoder sample_na_file = Ok out /\
    nth 11 (nth 1 (data_rows sample_na_file) []) "" = "N/A" /\
    str_replace "#" "" "N/A" = "N/A" /\
    parse_number "N/A" = None /\
    nth_error (csv_rows out) 1 = Some row /\
    nth 2 row (Cell (VInt 0)) = Empty.
Proof.
  eexists. eexists.
  split; [vm_compute; reflexivity|].
  repeat split; vm_compute; reflexivity.
Qed.

(** A missing-value token never reaches the numeric conversion. *)
Lemma clean_na (raw : string) (v0 v : value) :
  is_na raw = true -> clean raw = Some v0 -> stored v0 v -> v = VFloat NaN.
Proof.
  intros Hna Hc Hs. unfold clean in Hc. rewrite Hna in Hc.
  injection Hc as <-. apply stored_nan. assumption.
Qed.

(** C6, amended.  For a data row of the input:
    - when its raw [E] or [U(E)] field is not one of the reader's
      missing-value tokens and, once its markers are stripped, is neither
      empty nor a numeric literal, the run raises and writes no file:
      [ValueError] from the numeric conversion, or [AttributeError]
      before it when the energy column in question, or the one treated
      before it, holds no string;
    - a raw [E] or [U(E)] field that is a missing-value token is no such
      field: whenever the run completes it is written as the empty
      field, and a missing [E] has [known = 0]. *)
Theorem unparsable_field_is_fatal (lines : list string) (i : nat) (fields : list string) :
  nth_error (data_rows lines) i = Some fields ->
  (unparsable (nth 11 fields "") \/ unparsable (nth 13 fields "") ->
   decoder lines = Raise ValueError \/ decoder lines = Raise AttributeError) /\
  (forall out,
     decoder lines = Ok out ->
     exists row,
       nth_error (csv_rows out) i = Some row /\
       (is_na (nth 11 fields "") = true ->
        nth 2 row (Cell (VInt 0)) = Empty /\ nth 4 row Empty = Cell (VInt 0)) /\
       (is_na (nth 13 fields "") = true -> nth 3 row (Cell (VInt 0)) = Empty)).
Proof.
  intros Hf. split.
  - intros Hbad. rewrite decoder_eq, (data_row_enough_rows _ _ _ Hf). cbv zeta.
    pose proof (strip_unparsable _ _ _ (raw_column_nth 11 _ _ _ Hf)) as HE.
    pose proof (strip_unparsable _ _ _ (raw_column_nth 13 _ _ _ Hf)) as HU.
    destruct (str_accessor_cases (infer_types (raw_column 11 lines))) as [Hs|Hs];
      rewrite Hs in *; cbn [bind] in *; [|auto].
    destruct (to_numeric_raise_cases
                (series_str_replace "#" "" (infer_types (raw_column 11 lines))))
      as [[e He]|He]; rewrite He in *; cbn [bind] in *; [|auto].
    destruct Hbad as [Hbad|Hbad].
    + destruct (HE Hbad); discriminate.
    + specialize (HU Hbad).
      destruct (str_accessor_cases (infer_types (raw_column 13 lines))) as [Ht|Ht];
        rewrite Ht in *; cbn [bind] in *; [|auto].
      destruct HU as [-> | ->]; cbn [bind]; auto.
  - intros out Hout.
    assert (Hlt : (i < List.length (csv_rows out))%nat).
    { rewrite (decoder_length _ _ Hout). apply nth_error_Some. congruence. }
    destruct (nth_error (csv_rows out) i) as [row|] eqn:Hrow;
      [|apply nth_error_Some in Hlt; contradiction].
    destruct (decoder_row _ _ _ _ _ Hout Hf Hrow)
      as (vN & vZ & vE & vU & vA & vD & vR & e0 & u0 & -> & _ & _ & He0 & HsE & Hu0 & HsU & _).
    exists [to_field vN; to_field vZ; to_field vE; to_field vU;
            to_field (VInt (known_of (nth 11 fields "")));
            to_field vA; to_field vD; to_field vR].
    split; [reflexivity|]. cbn [nth]. split.
    + intros Hna. rewrite (clean_na _ _ _ Hna He0 HsE).
      unfold known_of. rewrite Hna. split; reflexivity.
    + intros Hna. rewrite (clean_na _ _ _ Hna Hu0 HsU). reflexivity.
Qed.

Lemma unparsable_field_is_fatal_witness :
  (exists fields,
     nth_error (data_rows sample_bad_file) 1 = Some fields /\
     unparsable (nth 11 fields "") /\
     (decoder sample_bad_file = Raise ValueError \/
      decoder sample_bad_file = Raise AttributeError)) /\
  (exists fields out row,
     nth_error (data_rows sample_na_file) 1 = Some fields /\
     is_na (nth 11 fields "") = true /\
     decoder sample_na_file = Ok out /\
     nth_error (csv_rows out) 1 = Some row /\
     nth 2 row (Cell (VInt 0)) = Empty /\ nth 4 row Empty = Cell (VInt 0)).
Proof.
  split.
  - eexists. split; [vm_compute; reflexivity|].
    assert (Hbad : unparsable "12*").
    { split; [reflexivity|]. split; [discriminate|reflexivity]. }
    split; [exact Hbad|].
    apply (proj1 (unparsable_field_is_fatal sample_bad_file 1 _ eq_refl)).
    left. exact Hbad.
  - eexists. eexists.
    destruct (proj2 (unparsable_field_is_fatal sample_na_file 1 _ eq_refl) _ eq_refl)
      as (row & Hrow & HE & _).
    exists row. split; [reflexivity|]. split; [reflexivity|].
    split; [reflexivity|]. split; [exact Hrow|]. exact (HE eq_refl).
Defined.

(** ** Short lines *)

Lemma substring_beyond (n m : nat) (s : string) :
  (String.length s <= n)%nat -> substring n m s = "".
Proof.
  revert s. induction n as [|n IH]; intros [|c s] H; simpl in *; try lia.
  - destruct m; reflexivity.
  - destruct m; reflexivity.
  - apply IH. lia.
Qed.

Lemma slice_beyond (from to : nat) (s : string) :
  (String.length s <= from)%nat -> strip is_delimiter (slice from to s) = "".
Proof. intros H. unfold slice. rewrite substring_beyond by assumption. reflexivity. Qed.

(** A field whose range starts past the end of the line is blank. *)
Lemma field_beyond (line : string) (k from to : nat) :
  nth_error colspecs k = Some (from, to) ->
  (String.length line <= from)%nat ->
  nth k (fwf_fields line) "" = "".
Proof.
  intros Hk Hlen. unfold fwf_fields.
  apply nth_error_nth_default.
  rewrite nth_error_map, Hk. simpl. rewrite slice_beyond by assumption. reflexivity.
Qed.

Lemma filter_map_comm {A B : Type} (f : A -> B) (p : B -> bool) (l : list A) :
  filter p (map f l) = map f (filter (fun a => p (f a)) l).
Proof.
  induction l as [|a l IH]; simpl; auto.
  destruct (p (f a)); simpl; rewrite IH; reflexivity.
Qed.

Lemma data_rows_lines (lines : list string) :
  data_rows lines = map fwf_fields (data_lines lines).
Proof.
  unfold data_rows, data_lines, file_rows.
  rewrite filter_map_comm, skipn_map. reflexivity.
Qed.

(** C7, as stated, fails: a data line that ends before the [E] and
    [U(E)] ranges does not abort the run; its row is written. *)
Lemma short_line_counterexample :
  exists out row,
    nth_error (data_lines sample_short_file) 1 = Some short_line /\
    String.length short_line = 14%nat /\
    decoder sample_short_file = Ok out /\
    List.length (csv_rows out) = 2%nat /\
    nth_error (csv_rows out) 1 = Some row /\
    row = [Cell (VInt 4); Cell (VInt 2); Empty; Empty; Cell (VInt 0);
           Cell (VInt 6); Cell (VInt 2); Cell (VFloat (Fin (2 # 1)))].
Proof.
  eexists. eexists.
  split; [vm_compute; reflexivity|].
  split; [reflexivity|].
  split; [vm_compute; reflexivity|].
  repeat split; vm_compute; reflexivity.
Qed.

Lemma read_as_blank (v : value) : read_as "" v -> v = VFloat NaN.
Proof.
  intros [->|(v0 & Hv0 & Hs)]; [reflexivity|].
  injection Hv0 as <-. apply stored_nan. assumption.
Qed.

Lemma clean_blank (v0 v : value) : clean "" = Some v0 -> stored v0 v -> v = VFloat NaN.
Proof. apply clean_na. reflexivity. Qed.

(** C7, amended: a data line shorter than the layout, however short, is
    not an error.  For every data line:
    - reading succeeds and keeps one row per data line, and the row of
      the line holds the fields cut from it;
    - a field whose range starts at or past the end of the line is
      blank;
    - whenever the run completes the line's row is written; its [N],
      [Z], [E] and [U(E)] fields are empty when the line ends before
      their ranges (at characters 4, 9, 54 and 68), and a line that ends
      before the [E] range has [known = 0]. *)
Theorem short_line_is_read_as_blank (lines : list string) (i : nat) (line : string) :
  nth_error (data_lines lines) i = Some line ->
  (exists df,
     read_fwf lines = Ok df /\ nrows df = List.length (data_lines lines)) /\
  nth_error (data_rows lines) i = Some (fwf_fields line) /\
  (forall k from to,
     nth_error colspecs k = Some (from, to) ->
     (String.length line <= from)%nat ->
     nth k (fwf_fields line) "" = "") /\
  (forall out,
     decoder lines = Ok out ->
     exists row,
       nth_error (csv_rows out) i = Some row /\
       ((String.length line <= 4)%nat -> nth 0 row (Cell (VInt 0)) = Empty) /\
       ((String.length line <= 9)%nat -> nth 1 row (Cell (VInt 0)) = Empty) /\
       ((String.length line <= 54)%nat ->
        nth 2 row (Cell (VInt 0)) = Empty /\ nth 4 row Empty = Cell (VInt 0)) /\
       ((String.length line <= 68)%nat -> nth 3 row (Cell (VInt 0)) = Empty)).
Proof.
  intros Hi.
  assert (Hf : nth_error (data_rows lines) i = Some (fwf_fields line)).
  { rewrite data_rows_lines. apply nth_error_map_some. assumption. }
  split; [|split; [exact Hf|split]].
  - rewrite read_fwf_eq, (data_row_enough_rows _ _ _ Hf).
    eexists. split; [reflexivity|].
    unfold nrows. rewrite infer_types_length, raw_column_length, data_rows_lines.
    apply length_map.
  - intros k from to Hk Hlen. eapply field_beyond; eauto.
  - intros out Hout.
    assert (Hlt : (i < List.length (csv_rows out))%nat).
    { rewrite (decoder_length _ _ Hout). apply nth_error_Some. congruence. }
    destruct (nth_error (csv_rows out) i) as [row|] eqn:Hrow;
      [|apply nth_error_Some in Hlt; contradiction].
    destruct (decoder_row _ _ _ _ _ Hout Hf Hrow)
      as (vN & vZ & vE & vU & vA & vD & vR & e0 & u0 & -> & HrN & HrZ & He0 & HsE
          & Hu0 & HsU & _).
    exists [to_field vN; to_field vZ; to_field vE; to_field vU;
            to_field (VInt (known_of (nth 11 (fwf_fields line) "")));
            to_field vA; to_field vD; to_field vR].
    split; [reflexivity|]. cbn [nth].
    split; [|split; [|split]]; intros Hlen.
    + rewrite (field_beyond line 2 4 9) in HrN by (reflexivity || assumption).
      rewrite (read_as_blank _ HrN). reflexivity.
    + rewrite (field_beyond line 3 9 14) in HrZ by (reflexivity || assumption).
      rewrite (read_as_blank _ HrZ). reflexivity.
    + rewrite (field_beyond line 11 54 67) in He0 |- * by (reflexivity || assumption).
      rewrite (clean_blank _ _ He0 HsE). split; reflexivity.
    + rewrite (field_beyond line 13 68 78) in Hu0 by (reflexivity || assumption).
      rewrite (clean_blank _ _ Hu0 HsU). reflexivity.
Qed.

Lemma short_line_is_read_as_blank_witness :
  nth_error (data_lines sample_short_file) 1 = Some short_line /\
  String.length short_line = 14%nat /\
  (exists df,
     read_fwf sample_short_file = Ok df /\
     nrows df = List.length (data_lines sample_short_file)) /\
  (forall out,
     decoder sample_short_file = Ok out ->
     exists row,
       nth_error (csv_rows out) 1 = Some row /\
       nth 2 row (Cell (VInt 0)) = Empty /\
       nth 3 row (Cell (VInt 0)) = Empty /\
       nth 4 row Empty = Cell (VInt 0)).
Proof.
  split; [vm_compute; reflexivity|].
  split; [reflexivity|].
  destruct (short_line_is_read_as_blank sample_short_file 1 short_line eq_refl)
    as (Hread & _ & _ & Hrun).
  split; [exact Hread|].
  intros out Hout. destruct (Hrun out Hout) as (row & Hrow & _ & _ & HE & HU).
  exists row. split; [exact Hrow|].
  assert (H54 : (String.length short_line <= 54)%nat) by (vm_compute; lia).
  assert (H68 : (String.length short_line <= 68)%nat) by (vm_compute; lia).
  destruct (HE H54) as [H2 H4]. split; [exact H2|]. split; [exact (HU H68)|exact H4].
Defined.

(** ** Marker stripping *)



Example strip_embedded_marker :
  clean "12#34" = Some (VInt 1234).
Proof. reflexivity. Qed.

Example strip_repeated_marker :
  clean "-1234##" = Some (VInt (-1234)).
Proof. reflexivity. Qed.



(** The two rows of the marker sample, as written. *)
Example marker_sample_output :
  decoder sample_marker_file =
  Ok {| csv_header := ["N"; "Z"; "E"; "U(E)"; "known"; "A"; "N-Z"; "N/Z"];
        csv_rows :=
          [[Cell (VInt 6); Cell (VInt 6); Cell (VInt 1234); Cell (VInt 1);
            Cell (VInt 0); Cell (VInt 12); Cell (VInt 0); Cell (VFloat (Fin (1 # 1)))];
           [Cell (VInt 7); Cell (VInt 6); Cell (VInt (-1234)); Cell (VInt 2);
            Cell (VInt 0); Cell (VInt 13); Cell (VInt 1); Cell (VFloat (Fin (7 # 6)))]] |}.
Proof. vm_compute. reflexivity. Qed.

(** ** Integers read from a field of bounded width *)

Lemma digit_of_range (c : ascii) (d : Z) : digit_of c = Some d -> 0 <= d <= 9.
Proof.
  unfold digit_of.
  destruct (Nat.leb 48 (nat_of_ascii c) && Nat.leb (nat_of_ascii c) 57)%bool eqn:H;
    [|discriminate].
  apply andb_true_iff in H as [H1 H2].
  apply Nat.leb_le in H1, H2. intros E; injection E as <-. lia.
Qed.

Lemma take_digits_bound (s : string) :
  forall acc v n r,
    take_digits acc s = (v, n, r) -> 0 <= acc ->
    acc * 10 ^ Z.of_nat n <= v < (acc + 1) * 10 ^ Z.of_nat n /\
    (n <= String.length s)%nat.
Proof.
  induction s as [|c s IH]; intros acc v n r H Hacc; simpl in H.
  - injection H as <- <- <-. simpl. lia.
  - destruct (digit_of c) as [d|] eqn:Hd.
    + destruct (take_digits (acc * 10 + d) s) as [[v' n'] r'] eqn:Ht.
      injection H as <- <- <-.
      apply digit_of_range in Hd.
      destruct (IH _ _ _ _ Ht) as [Hv Hn]; [lia|].
      split; [|simpl; lia].
      rewrite Nat2Z.inj_succ, Z.pow_succ_r by lia.
      assert (0 < 10 ^ Z.of_nat n') by (apply Z.pow_pos_nonneg; lia).
      nia.
    + injection H as <- <- <-. simpl. lia.
Qed.

Lemma take_sign_length (s s1 : string) (neg : bool) :
  take_sign s = (neg, s1) -> (String.length s1 <= String.length s)%nat.
Proof.
  unfold take_sign. destruct s as [|c s]; [intros H; injection H as <- <-; auto|].
  assert (Hgen : (neg, s1) = (false, String c s) \/ s1 = s ->
                 (String.length s1 <= String.length (String c s))%nat).
  { intros [E| ->]; [injection E as -> ->; auto|simpl; lia]. }
  destruct c as [[] [] [] [] [] [] [] []]; intros H; apply Hgen;
    solve [left; congruence | right; congruence].
Qed.

Lemma parse_literal_int (s : string) (z : Z) :
  parse_literal s = Some (VInt z) ->
  exists neg s1 ip ni r,
    take_sign s = (neg, s1) /\ take_digits 0 s1 = (ip, ni, r) /\ z = signed neg ip.
Proof.
  unfold parse_literal.
  destruct (take_sign s) as [neg s1] eqn:Hs.
  destruct (take_digits 0 s1) as [[ip ni] s2] eqn:Ht.
  intros H. exists neg, s1, ip, ni, s2. split; [reflexivity|]. split; [exact Ht|].
  clear Ht. destruct s2 as [|c s3].
  - destruct ni; [discriminate|]. congruence.
  - destruct (Ascii.eqb_spec c "."%char) as [->|Hc].
    + destruct (take_digits ip s3) as [[m nf] s4].
      destruct (ni + nf)%nat; [discriminate|].
      destruct (parse_exponent s4); [|discriminate].
      apply decimal_float in H as [q H]. discriminate.
    + exfalso.
      assert (Hgen : match ni with
                     | O => None
                     | S _ => match parse_exponent (String c s3) with
                              | Some e => decimal (signed neg ip) (wrap32 e)
                              | None => None
                              end
                     end <> Some (VInt z)).
      { destruct ni; [discriminate|].
        destruct (parse_exponent (String c s3)); [|discriminate].
        intros E. apply decimal_float in E as [q E]. discriminate. }
      destruct c as [[] [] [] [] [] [] [] []]; try (exact (Hgen H)); congruence.
Qed.

(** An integer literal of [n] characters is below [10 ^ n] in absolute
    value. *)
Lemma lstrip_length (p : ascii -> bool) (s : string) :
  (String.length (lstrip p s) <= String.length s)%nat.
Proof.
  induction s as [|c s IH]; simpl; auto.
  destruct (p c); simpl; lia.
Qed.

Lemma rstrip_length (p : ascii -> bool) (s : string) :
  (String.length (rstrip p s) <= String.length s)%nat.
Proof.
  induction s as [|c s IH]; simpl; auto.
  destruct (rstrip p s) as [|c' r]; simpl in *.
  - destruct (p c); simpl; lia.
  - lia.
Qed.

Lemma strip_length (p : ascii -> bool) (s : string) :
  (String.length (strip p s) <= String.length s)%nat.
Proof.
  unfold strip.
  pose proof (rstrip_length p (lstrip p s)). pose proof (lstrip_length p s). lia.
Qed.

Lemma parse_number_int_bound (s : string) (z : Z) :
  parse_number s = Some (VInt z) -> Z.abs z < 10 ^ Z.of_nat (String.length s).
Proof.
  unfold parse_number.
  destruct (parse_literal (strip isspace s)) as [w|] eqn:Hl;
    [|intros H; apply parse_infinity_float in H as [H|H]; discriminate].
  intros H. injection H as ->.
  apply parse_literal_int in Hl as (neg & s1 & ip & ni & r & Hs & Ht & ->).
  apply take_sign_length in Hs.
  apply take_digits_bound in Ht as [Hv Hn]; [|lia].
  pose proof (strip_length isspace s) as Hlen.
  assert (10 ^ Z.of_nat ni <= 10 ^ Z.of_nat (String.length s))
    by (apply Z.pow_le_mono_r; lia).
  unfold signed. destruct neg; lia.
Qed.

Lemma substring_length_le (n m : nat) (s : string) :
  (String.length (substring n m s) <= m)%nat.
Proof.
  revert n m. induction s as [|c s IH]; intros [|n] [|m]; simpl; try lia.
  - specialize (IH O m). lia.
  - apply IH.
  - apply IH.
Qed.

(** A field is no wider than its range. *)
Lemma field_width (line : string) (k from to : nat) :
  nth_error colspecs k = Some (from, to) ->
  (String.length (nth k (fwf_fields line) "") <= to - from)%nat.
Proof.
  intros Hk. unfold fwf_fields.
  rewrite (nth_error_nth_default _ k (strip is_delimiter (slice from to line)) "").
  - unfold slice.
    pose proof (strip_length is_delimiter (substring from (to - from) line)).
    pose proof (substring_length_le from (to - from) line). lia.
  - rewrite nth_error_map, Hk. reflexivity.
Qed.

Lemma read_as_int (raw : string) (z : Z) :
  read_as raw (VInt z) -> parse_number raw = Some (VInt z).
Proof.
  unfold read_as, object_field, numeric_field, stored.
  intros [H|(v0 & Hv0 & [H|H])].
  - destruct (is_na raw); discriminate.
  - subst v0. destruct (is_na raw); [discriminate|assumption].
  - destruct v0; discriminate.
Qed.

Lemma wrap64_small (x : Z) : - 2 ^ 63 <= x < 2 ^ 63 -> wrap64 x = x.
Proof.
  intros H. unfold wrap64. rewrite Z.mod_small; lia.
Qed.

Lemma data_row_is_line (lines : list string) (i : nat) (fields : list string) :
  nth_error (data_rows lines) i = Some fields ->
  exists line, fields = fwf_fields line.
Proof.
  rewrite data_rows_lines, nth_error_map.
  destruct (nth_error (data_lines lines) i) as [line|]; [|discriminate].
  intros H; injection H as <-. eauto.
Qed.

(** The integers read from the [N] and [Z] ranges, five characters wide,
    are below [10 ^ 5] in absolute value. *)
Lemma count_bound (line : string) (k from to : nat) (z : Z) :
  nth_error colspecs k = Some (from, to) ->
  (to - from <= 5)%nat ->
  read_as (nth k (fwf_fields line) "") (VInt z) -> Z.abs z < 10 ^ 5.
Proof.
  intros Hk Hw H. apply read_as_int, parse_number_int_bound in H.
  pose proof (field_width line k from to Hk) as Hlen.
  assert (10 ^ Z.of_nat (String.length (nth k (fwf_fields line) "")) <= 10 ^ 5)
    by (apply Z.pow_le_mono_r; lia).
  lia.
Qed.




(** ** The derived columns [A] and [N-Z] *)



(** ** Axes of the grid *)

Lemma insert_key_In (k x : Z) (l : list Z) :
  In x (insert_key k l) <-> x = k \/ In x l.
Proof.
  induction l as [|y l IH]; simpl.
  - intuition.
  - destruct (Z.compare_spec k y) as [->|Hlt|Hgt]; simpl.
    + intuition.
    + intuition.
    + rewrite IH. intuition.
Qed.

Lemma insert_key_sorted (k : Z) (l : list Z) :
  StronglySorted Z.lt l -> StronglySorted Z.lt (insert_key k l).
Proof.
  induction 1 as [|y l Hs IH Hall]; simpl.
  - repeat constructor.
  - destruct (Z.compare_spec k y) as [->|Hlt|Hgt].
    + constructor; assumption.
    + constructor; [constructor; assumption|].
      constructor; [assumption|].
      eapply Forall_impl; [|exact Hall]. simpl. intros; lia.
    + constructor; [assumption|].
      apply Forall_forall. intros x Hx. apply insert_key_In in Hx as [->|Hx]; [lia|].
      rewrite Forall_forall in Hall. auto.
Qed.

Lemma distinct_sorted_In (x : Z) (l : list Z) :
  In x (distinct_sorted l) <-> In x l.
Proof.
  unfold distinct_sorted. induction l as [|y l IH]; simpl; [tauto|].
  rewrite insert_key_In, IH. intuition.
Qed.

Lemma distinct_sorted_sorted (l : list Z) :
  StronglySorted Z.lt (distinct_sorted l).
Proof.
  unfold distinct_sorted. induction l as [|y l IH]; simpl.
  - constructor.
  - apply insert_key_sorted. assumption.
Qed.

Lemma position_In (k : Z) (l : list Z) :
  In k l -> exists n, position k l = Some n.
Proof.
  induction l as [|x l IH]; simpl; [contradiction|].
  destruct (Z.eqb_spec x k) as [->|Hne]; [eauto|].
  intros [H|H]; [contradiction|].
  destruct (IH H) as [n ->]. eauto.
Qed.

Lemma position_nth (k : Z) (l : list Z) (n : nat) :
  position k l = Some n -> nth_error l n = Some k.
Proof.
  revert n. induction l as [|x l IH]; simpl; intros n H; [discriminate|].
  destruct (Z.eqb_spec x k) as [->|Hne].
  - injection H as <-. reflexivity.
  - destruct (position k l) as [m|]; [|discriminate].
    injection H as <-. simpl. auto.
Qed.

(** Two labels at the same position of an axis are the same label. *)
Lemma position_inj (k1 k2 : Z) (l : list Z) (n : nat) :
  position k1 l = Some n -> position k2 l = Some n -> k1 = k2.
Proof.
  intros H1 H2. apply position_nth in H1, H2. congruence.
Qed.

(** ** Records and cells *)

Lemma key_eqb_eq (p q : Z * Z) : key_eqb p q = true <-> p = q.
Proof.
  destruct p as [a b], q as [c d]. unfold key_eqb. simpl.
  rewrite andb_true_iff, !Z.eqb_eq. split; [intros [-> ->]; auto|intros E; inversion E; auto].
Qed.

Lemma existsb_key (p : Z * Z) (l : list (Z * Z)) :
  existsb (key_eqb p) l = true <-> In p l.
Proof.
  rewrite existsb_exists. split.
  - intros (q & Hq & E). apply key_eqb_eq in E. subst. assumption.
  - intros H. exists p. split; auto. apply key_eqb_eq. reflexivity.
Qed.

Lemma has_duplicate_NoDup (l : list (Z * Z)) :
  has_duplicate l = false <-> NoDup l.
Proof.
  induction l as [|p l IH]; simpl.
  - split; [constructor|reflexivity].
  - rewrite orb_false_iff, IH. split.
    + intros [Hp Hl]. constructor; auto.
      intros Hin. apply existsb_key in Hin. congruence.
    + intros H. inversion H as [|? ? Hp Hl]; subst. split; auto.
      destruct (existsb (key_eqb p) l) eqn:E; auto.
      apply existsb_key in E. contradiction.
Qed.

(** With unique keys, the cell of a record's keys holds that record's
    value. *)
Lemma cell_value_present (df : dataframe) (r : nuclide) :
  has_duplicate (map key_of df) = false -> In r df ->
  cell_value df (rec_NmZ r) (rec_A r) = rec_E r.
Proof.
  unfold cell_value. induction df as [|x df IH]; simpl; [contradiction|].
  intros Hd Hin. apply orb_false_iff in Hd as [Hx Hd].
  fold (key_of r).
  destruct (key_eqb (key_of x) (key_of r)) eqn:E.
  - destruct Hin as [->|Hin]; [reflexivity|].
    apply key_eqb_eq in E.
    assert (existsb (key_eqb (key_of x)) (map key_of df) = true).
    { apply existsb_key. rewrite E. apply in_map. assumption. }
    congruence.
  - destruct Hin as [->|Hin].
    + rewrite (proj2 (key_eqb_eq _ _) eq_refl) in E. discriminate.
    + apply IH; assumption.
Qed.

Lemma cell_value_absent (df : dataframe) (nz a : Z) :
  (forall r, In r df -> key_of r <> (nz, a)) ->
  cell_value df nz a = VFloat NaN.
Proof.
  unfold cell_value. intros H.
  destruct (find _ df) as [r|] eqn:E; [|reflexivity].
  apply find_some in E as [Hin E]. apply key_eqb_eq in E.
  exfalso. exact (H r Hin E).
Qed.

Lemma grid_cell_pivot (df : dataframe) (g : grid) (nz a : Z) :
  pivot df = Ok g -> In nz (grid_index g) -> In a (grid_columns g) ->
  grid_cell g nz a = Some (cell_value df nz a).
Proof.
  unfold pivot. destruct (has_duplicate (map key_of df)); [discriminate|].
  intros H; injection H as <-. simpl. intros Hnz Ha.
  unfold grid_cell. simpl.
  destruct (position_In _ _ Hnz) as [i Hi]. destruct (position_In _ _ Ha) as [j Hj].
  rewrite Hi, Hj.
  rewrite (nth_error_map_some _ _ _ _ (position_nth _ _ _ Hi)).
  rewrite (nth_error_map_some _ _ _ _ (position_nth _ _ _ Hj)).
  reflexivity.
Qed.

(** ** Unit conversion *)

Lemma Forall2_In_l {A B : Type} (R : A -> B -> Prop) (l : list A) (l' : list B) (a : A) :
  Forall2 R l l' -> In a l -> exists b, In b l' /\ R a b.
Proof.
  induction 1 as [|x y l l' Hxy _ IH]; simpl; [contradiction|].
  intros [->|H]; [eauto|]. destruct (IH H) as (b & Hb & Hab). eauto.
Qed.

Lemma Forall2_In_r {A B : Type} (R : A -> B -> Prop) (l : list A) (l' : list B) (b : B) :
  Forall2 R l l' -> In b l' -> exists a, In a l /\ R a b.
Proof.
  induction 1 as [|x y l l' Hxy _ IH]; simpl; [contradiction|].
  intros [->|H]; [eauto|]. destruct (IH H) as (a & Ha & Hab). eauto.
Qed.

Lemma conversions_Forall2 (df d1 d2 : dataframe) :
  convert_E df = Ok d1 -> convert_UE d1 = Ok d2 -> Forall2 converted df d2.
Proof.
  unfold convert_E, convert_UE. intros H1 H2.
  apply mapM_Forall2 in H1. apply mapM_Forall2 in H2.
  revert d2 H2. induction H1 as [|r r1 df d1 Hr _ IH]; intros d2 H2.
  - inversion H2. constructor.
  - inversion H2 as [|? r2 ? d2' Hr2 Hd2]; subst. constructor; [|apply IH; assumption].
    destruct (arith Div (rec_E r) (VInt 1000)) as [v|] eqn:Hv; [|discriminate].
    cbn [bind] in Hr. injection Hr as <-.
    destruct (arith Div (rec_UE (set_E v r)) (VInt 1000)) as [w|]; [|discriminate].
    cbn [bind] in Hr2. injection Hr2 as <-.
    split; [reflexivity|exact Hv].
Qed.

Lemma converted_keys (df d2 : dataframe) :
  Forall2 converted df d2 -> map key_of d2 = map key_of df.
Proof.
  induction 1 as [|r r2 df d2 [Hk _] _ IH]; simpl; [reflexivity|].
  rewrite Hk, IH. reflexivity.
Qed.

Lemma map_key_fst (df : dataframe) : map rec_NmZ df = map fst (map key_of df).
Proof. rewrite map_map. reflexivity. Qed.

Lemma map_key_snd (df : dataframe) : map rec_A df = map snd (map key_of df).
Proof. rewrite map_map. reflexivity. Qed.

(** ** The pivot *)

(** C8: for a frame with unique (N-Z, A) pairs whose unit conversions
    succeed, the pivot succeeds, and in the grid
    - the cell in the row labelled with a record's N-Z and the column
      labelled with its A holds that record's E divided by 1000;
    - two records with the same A and different N-Z lie in the same
      column and in different rows;
    - the cell of a pair of labels that no record has is empty;
    - both axes list their labels in increasing order, without
      repetition. *)
Theorem pivot_places_records (df d1 d2 : dataframe) :
  convert_E df = Ok d1 ->
  convert_UE d1 = Ok d2 ->
  has_duplicate (map key_of df) = false ->
  exists g,
    pivot d2 = Ok g /\
    (forall r, In r df ->
       exists e, arith Div (rec_E r) (VInt 1000) = Ok e /\
                 grid_cell g (rec_NmZ r) (rec_A r) = Some e) /\
    (forall r1 r2, In r1 df -> In r2 df ->
       rec_A r1 = rec_A r2 -> rec_NmZ r1 <> rec_NmZ r2 ->
       exists i1 i2 j,
         position (rec_NmZ r1) (grid_index g) = Some i1 /\
         position (rec_NmZ r2) (grid_index g) = Some i2 /\
         i1 <> i2 /\
         position (rec_A r1) (grid_columns g) = Some j /\
         position (rec_A r2) (grid_columns g) = Some j) /\
    (forall nz a, In nz (grid_index g) -> In a (grid_columns g) ->
       (forall r, In r df -> key_of r <> (nz, a)) ->
       grid_cell g nz a = Some (VFloat NaN)) /\
    StronglySorted Z.lt (grid_index g) /\
    StronglySorted Z.lt (grid_columns g).
Proof.
  intros H1 H2 Hdup.
  pose proof (conversions_Forall2 _ _ _ H1 H2) as Hconv.
  pose proof (converted_keys _ _ Hconv) as Hkeys.
  assert (Hdup2 : has_duplicate (map key_of d2) = false) by (rewrite Hkeys; exact Hdup).
  destruct (pivot d2) as [g|] eqn:Hg;
    [|unfold pivot in Hg; rewrite Hdup2 in Hg; discriminate].
  exists g. split; [reflexivity|].
  assert (Hidx : grid_index g = distinct_sorted (map rec_NmZ df)).
  { unfold pivot in Hg. rewrite Hdup2 in Hg. injection Hg as <-. simpl.
    rewrite (map_key_fst d2), Hkeys, <- map_key_fst. reflexivity. }
  assert (Hcol : grid_columns g = distinct_sorted (map rec_A df)).
  { unfold pivot in Hg. rewrite Hdup2 in Hg. injection Hg as <-. simpl.
    rewrite (map_key_snd d2), Hkeys, <- map_key_snd. reflexivity. }
  assert (Hin_idx : forall r, In r df -> In (rec_NmZ r) (grid_index g)).
  { intros r Hr. rewrite Hidx. apply distinct_sorted_In, in_map. assumption. }
  assert (Hin_col : forall r, In r df -> In (rec_A r) (grid_columns g)).
  { intros r Hr. rewrite Hcol. apply distinct_sorted_In, in_map. assumption. }
  split; [|split; [|split; [|split]]].
  - intros r Hr.
    destruct (Forall2_In_l _ _ _ _ Hconv Hr) as (r2 & Hr2 & Hk & He).
    exists (rec_E r2). split; [assumption|].
    rewrite (grid_cell_pivot _ _ _ _ Hg (Hin_idx r Hr) (Hin_col r Hr)).
    unfold key_of in Hk. injection Hk as <- <-.
    rewrite cell_value_present; auto.
  - intros r1 r2 Hr1 Hr2 HA Hnz.
    destruct (position_In _ _ (Hin_idx r1 Hr1)) as [i1 Hi1].
    destruct (position_In _ _ (Hin_idx r2 Hr2)) as [i2 Hi2].
    destruct (position_In _ _ (Hin_col r1 Hr1)) as [j Hj].
    exists i1, i2, j. repeat split; auto.
    + intros ->. apply Hnz. eapply position_inj; eauto.
    + rewrite <- HA. assumption.
  - intros nz a Hnz Ha Habs.
    rewrite (grid_cell_pivot _ _ _ _ Hg Hnz Ha).
    rewrite cell_value_absent; auto.
    intros r2 Hr2 Hk.
    destruct (Forall2_In_r _ _ _ _ Hconv Hr2) as (r & Hr & Hk' & _).
    apply (Habs r Hr). congruence.
  - rewrite Hidx. apply distinct_sorted_sorted.
  - rewrite Hcol. apply distinct_sorted_sorted.
Qed.

Lemma pivot_places_records_witness :
  exists d1 d2,
    convert_E sample_frame = Ok d1 /\
    convert_UE d1 = Ok d2 /\
    has_duplicate (map key_of sample_frame) = false /\
    exists g,
      pivot d2 = Ok g /\
      (forall r, In r sample_frame ->
         exists e, arith Div (rec_E r) (VInt 1000) = Ok e /\
                   grid_cell g (rec_NmZ r) (rec_A r) = Some e) /\
      (forall r1 r2, In r1 sample_frame -> In r2 sample_frame ->
         rec_A r1 = rec_A r2 -> rec_NmZ r1 <> rec_NmZ r2 ->
         exists i1 i2 j,
           position (rec_NmZ r1) (grid_index g) = Some i1 /\
           position (rec_NmZ r2) (grid_index g) = Some i2 /\
           i1 <> i2 /\
           position (rec_A r1) (grid_columns g) = Some j /\
           position (rec_A r2) (grid_columns g) = Some j) /\
      (forall nz a, In nz (grid_index g) -> In a (grid_columns g) ->
         (forall r, In r sample_frame -> key_of r <> (nz, a)) ->
         grid_cell g nz a = Some (VFloat NaN)) /\
      StronglySorted Z.lt (grid_index g) /\
      StronglySorted Z.lt (grid_columns g).
Proof.
  eexists. eexists.
  split; [vm_compute; reflexivity|].
  split; [vm_compute; reflexivity|].
  split; [vm_compute; reflexivity|].
  exact (pivot_places_records sample_frame _ _ eq_refl eq_refl eq_refl).
Defined.

(** The grid of the sample: the two records with A = 20 share the second
    column and lie in the first and third rows. *)
Example pivot_sample :
  pivoted sample_frame =
  Ok {| grid_index := [0; 2; 4];
        grid_columns := [18; 20];
        grid_values :=
          [[VFloat NaN; VFloat (Fin (8 # 1))];
           [VFloat (Fin (7 # 1)); VFloat NaN];
           [VFloat NaN; VFloat (Fin (15 # 2))]] |}.
Proof. vm_compute. reflexivity. Qed.

(** ** What the plot depends on *)

Lemma mapM_same_outcome {A B A' B' : Type} (R : A -> B -> Prop) (R' : A' -> B' -> Prop)
      (f : A -> result A') (g : B -> result B') (l1 : list A) (l2 : list B) :
  (forall a b, R a b -> same_outcome R' (f a) (g b)) ->
  Forall2 R l1 l2 ->
  same_outcome (Forall2 R') (mapM f l1) (mapM g l2).
Proof.
  intros Hfg. induction 1 as [|a b l1 l2 Hab _ IH]; simpl.
  - constructor.
  - specialize (Hfg a b Hab).
    destruct (f a) as [a'|e1], (g b) as [b'|e2]; simpl in *; try contradiction; auto.
    destruct (mapM f l1) as [r1|e1], (mapM g l2) as [r2|e2]; simpl in *;
      try contradiction; auto.
Qed.

Lemma Forall2_map_eq {A B C : Type} (f : A -> C) (g : B -> C) (l1 : list A) (l2 : list B) :
  map f l1 = map g l2 <-> Forall2 (fun a b => f a = g b) l1 l2.
Proof.
  split.
  - revert l2. induction l1 as [|a l1 IH]; intros [|b l2] H; simpl in H;
      try discriminate; constructor.
    + congruence.
    + apply IH. congruence.
  - induction 1 as [|a b l1 l2 Hab _ IH]; simpl; congruence.
Qed.

Lemma cell_value_plotted (d1 d2 : dataframe) (nz a : Z) :
  map plotted d1 = map plotted d2 -> cell_value d1 nz a = cell_value d2 nz a.
Proof.
  intros H. apply Forall2_map_eq in H. unfold cell_value.
  induction H as [|r1 r2 d1 d2 Hr _ IH]; simpl; [reflexivity|].
  unfold plotted in Hr. injection Hr as Hnz Ha He.
  unfold key_of at 1 3. rewrite Hnz, Ha.
  destruct (key_eqb (rec_NmZ r2, rec_A r2) (nz, a)); auto.
Qed.

Lemma plotted_keys (d1 d2 : dataframe) :
  map plotted d1 = map plotted d2 -> map key_of d1 = map key_of d2.
Proof.
  intros H.
  assert (E : forall d, map key_of d = map fst (map plotted d))
    by (intros d; rewrite map_map; reflexivity).
  rewrite !E, H. reflexivity.
Qed.

(** The pivot reads the three plotted columns only. *)
Lemma pivot_plotted (d1 d2 : dataframe) :
  map plotted d1 = map plotted d2 -> pivot d1 = pivot d2.
Proof.
  intros H. pose proof (plotted_keys _ _ H) as Hk. unfold pivot.
  rewrite (map_key_fst d1), (map_key_fst d2), (map_key_snd d1), (map_key_snd d2), Hk.
  destruct (has_duplicate (map key_of d2)); [reflexivity|].
  f_equal. f_equal.
  apply map_ext. intros nz. apply map_ext. intros a.
  apply cell_value_plotted. assumption.
Qed.

Lemma renderer_pivoted (exp_fin : Q -> float64) (df : dataframe) :
  renderer exp_fin df = (g <- pivoted df ;; plot_surface exp_fin g).
Proof.
  unfold renderer, pivoted.
  destruct (convert_E df) as [d1|]; [|reflexivity]. cbn [bind].
  destruct (convert_UE d1) as [d2|]; reflexivity.
Qed.

Lemma converted_plotted (df1 df2 d1 d2 : dataframe) :
  map plotted df1 = map plotted df2 ->
  Forall2 converted df1 d1 -> Forall2 converted df2 d2 ->
  map plotted d1 = map plotted d2.
Proof.
  intros H H1. apply Forall2_map_eq in H. revert df2 d2 H.
  induction H1 as [|r1 c1 df1 d1 [Hk1 He1] _ IH]; intros df2 d2 H H2.
  - inversion H; subst. inversion H2. reflexivity.
  - inversion H as [|? r2 ? df2' Hr Hdf]; subst.
    inversion H2 as [|? c2 ? d2' [Hk2 He2] Hd2]; subst.
    simpl. f_equal; [|eapply IH; eauto].
    unfold plotted in *. unfold key_of in Hk1, Hk2.
    injection Hk1 as -> ->. injection Hk2 as -> ->.
    injection Hr as -> -> Hr. rewrite Hr in He1. congruence.
Qed.

Lemma arith_div_numeric (x : value) :
  is_str x = false -> exists v, arith Div x (VInt 1000) = Ok v.
Proof.
  unfold arith. destruct (isnull x || isnull (VInt 1000))%bool; [eauto|].
  destruct x; simpl; intros H; try discriminate; eauto.
Qed.

Lemma convert_UE_numeric (df : dataframe) :
  numeric_UE df = true -> exists d, convert_UE df = Ok d.
Proof.
  unfold numeric_UE, convert_UE. intros H. apply mapM_total.
  rewrite forallb_forall in H. apply Forall_forall. intros r Hr.
  apply H, negb_true_iff in Hr.
  destruct (arith_div_numeric _ Hr) as [v ->]. cbn [bind]. eauto.
Qed.

Lemma convert_E_numeric_UE (df d1 : dataframe) :
  convert_E df = Ok d1 -> numeric_UE d1 = numeric_UE df.
Proof.
  unfold convert_E, numeric_UE. intros H. apply mapM_Forall2 in H.
  induction H as [|r r1 df d1 Hr _ IH]; simpl; [reflexivity|].
  destruct (arith Div (rec_E r) (VInt 1000)) as [v|]; [|discriminate].
  cbn [bind] in Hr. injection Hr as <-. simpl. rewrite IH. reflexivity.
Qed.

(** The first conversion reads the column [E] only. *)
Lemma convert_E_outcome (df1 df2 : dataframe) :
  map plotted df1 = map plotted df2 ->
  same_outcome (fun d1 d2 : dataframe => True) (convert_E df1) (convert_E df2).
Proof.
  intros H. apply Forall2_map_eq in H. unfold convert_E.
  assert (Hs : same_outcome (Forall2 (fun _ _ : nuclide => True))
                 (mapM (fun r => v <- arith Div (rec_E r) (VInt 1000) ;; Ok (set_E v r)) df1)
                 (mapM (fun r => v <- arith Div (rec_E r) (VInt 1000) ;; Ok (set_E v r)) df2)).
  { eapply mapM_same_outcome; [|exact H].
    intros a b Hab. unfold plotted in Hab. injection Hab as _ _ He. rewrite He.
    destruct (arith Div (rec_E b) (VInt 1000)); simpl; auto. }
  destruct (mapM _ df1), (mapM _ df2); simpl in *; auto.
Qed.

(** C9, as stated, fails: two frames that agree on N-Z, A and E and
    differ in U(E) only need not give the same plot, since a U(E) column
    holding text makes its conversion raise before anything is
    plotted. *)
Lemma plot_depends_on_UE_counterexample :
  map plotted sample_frame = map plotted sample_frame_text_UE /\
  forall exp_fin,
    is_ok (renderer exp_fin sample_frame) = true /\
    renderer exp_fin sample_frame_text_UE = Raise TypeError /\
    is_ok (pivoted sample_frame) = true /\
    pivoted sample_frame_text_UE = Raise TypeError.
Proof.
  split; [reflexivity|]. intros exp_fin.
  repeat split; vm_compute; reflexivity.
Qed.

(** C9, amended: for two frames that agree row for row on N-Z, A and E,
    whatever their other columns hold,
    - when the pivot is reached in both runs, the grids are the same and
      so is what is plotted;
    - when the U(E) columns of both are numeric (as they are in every
      file the decoder writes), the two runs end alike: same grid and
      same plotted values, or the same exception.
    U(E) is converted and never enters the grid. *)
Theorem plot_depends_on_three_columns (exp_fin : Q -> float64) (df1 df2 : dataframe) :
  map plotted df1 = map plotted df2 ->
  (forall g1 g2, pivoted df1 = Ok g1 -> pivoted df2 = Ok g2 ->
                 g1 = g2 /\ plot_surface exp_fin g1 = plot_surface exp_fin g2) /\
  (numeric_UE df1 = true -> numeric_UE df2 = true ->
   pivoted df1 = pivoted df2 /\ renderer exp_fin df1 = renderer exp_fin df2).
Proof.
  intros H.
  assert (Hboth : forall g1 g2, pivoted df1 = Ok g1 -> pivoted df2 = Ok g2 -> g1 = g2).
  { unfold pivoted. intros g1 g2 H1 H2.
    destruct (convert_E df1) as [a1|] eqn:Ha1; [|discriminate].
    destruct (convert_E df2) as [a2|] eqn:Ha2; [|discriminate].
    cbn [bind] in H1, H2.
    destruct (convert_UE a1) as [b1|] eqn:Hb1; [|discriminate].
    destruct (convert_UE a2) as [b2|] eqn:Hb2; [|discriminate].
    cbn [bind] in H1, H2.
    pose proof (converted_plotted _ _ _ _ H
                  (conversions_Forall2 _ _ _ Ha1 Hb1)
                  (conversions_Forall2 _ _ _ Ha2 Hb2)) as Hp.
    rewrite (pivot_plotted _ _ Hp) in H1. congruence. }
  split.
  - intros g1 g2 H1 H2. rewrite (Hboth g1 g2 H1 H2). auto.
  - intros Hn1 Hn2.
    assert (Hpiv : pivoted df1 = pivoted df2).
    { pose proof (convert_E_outcome _ _ H) as HE. unfold pivoted.
      destruct (convert_E df1) as [a1|e1] eqn:Ha1, (convert_E df2) as [a2|e2] eqn:Ha2;
        simpl in HE; try contradiction; cbn [bind]; [|congruence].
      rewrite <- (convert_E_numeric_UE _ _ Ha1) in Hn1.
      rewrite <- (convert_E_numeric_UE _ _ Ha2) in Hn2.
      destruct (convert_UE_numeric _ Hn1) as [b1 Hb1].
      destruct (convert_UE_numeric _ Hn2) as [b2 Hb2].
      rewrite Hb1, Hb2. cbn [bind].
      apply pivot_plotted.
      exact (converted_plotted _ _ _ _ H
               (conversions_Forall2 _ _ _ Ha1 Hb1)
               (conversions_Forall2 _ _ _ Ha2 Hb2)). }
    split; [exact Hpiv|].
    rewrite !renderer_pivoted, Hpiv. reflexivity.
Qed.

Lemma plot_depends_on_three_columns_witness :
  map plotted sample_frame =
  map plotted (map (set_UE (VFloat PInf)) sample_frame) /\
  (forall g1 g2,
     pivoted sample_frame = Ok g1 ->
     pivoted (map (set_UE (VFloat PInf)) sample_frame) = Ok g2 ->
     g1 = g2 /\
     plot_surface (fun q => Fin q) g1 = plot_surface (fun q => Fin q) g2) /\
  (numeric_UE sample_frame = true ->
   numeric_UE (map (set_UE (VFloat PInf)) sample_frame) = true ->
   pivoted sample_frame = pivoted (map (set_UE (VFloat PInf)) sample_frame) /\
   renderer (fun q => Fin q) sample_frame =
   renderer (fun q => Fin q) (map (set_UE (VFloat PInf)) sample_frame)).
Proof.
  split; [reflexivity|].
  apply (plot_depends_on_three_columns (fun q => Fin q) sample_frame
           (map (set_UE (VFloat PInf)) sample_frame)).
  reflexivity.
Defined.

(** * Further properties of the two scripts *)

(** ** Files without data *)

Lemma data_rows_nil_columns (k : nat) (lines : list string) :
  data_rows lines = [] -> infer_types (raw_column k lines) = [].
Proof. intros H. unfold raw_column. rewrite H. reflexivity. Qed.

Lemma header_only_no_data (lines : list string) :
  List.length (file_rows lines) = S header -> data_rows lines = [].
Proof.
  intros H. unfold data_rows. apply length_zero_iff_nil.
  rewrite length_skipn, H. apply Nat.sub_diag.
Qed.

(** X1: a file that holds the header rows and nothing after them
    ([header + 1] non-empty rows, blank lines not counted) is not an
    error: the run completes and writes the eight column names and no
    row. *)
Theorem file_without_data (lines : list string) :
  List.length (file_rows lines) = S header ->
  decoder lines =
  Ok {| csv_header := ["N"; "Z"; "E"; "U(E)"; "known"; "A"; "N-Z"; "N/Z"];
        csv_rows := [] |}.
Proof.
  intros H. rewrite decoder_eq, H.
  change (Nat.leb (S header) header) with false. cbv zeta.
  rewrite !(data_rows_nil_columns _ _ (header_only_no_data _ H)). reflexivity.
Qed.

Lemma file_without_data_witness :
  List.length (file_rows (banner ++ [spaces 135])) = S header /\
  decoder (banner ++ [spaces 135]) =
  Ok {| csv_header := ["N"; "Z"; "E"; "U(E)"; "known"; "A"; "N-Z"; "N/Z"];
        csv_rows := [] |}.
Proof.
  split; [vm_compute; reflexivity|].
  apply (file_without_data (banner ++ [spaces 135])). vm_compute; reflexivity.
Defined.

(** ** Lines that carry nothing *)

(** The run reads the file through its non-empty rows only. *)
Lemma decoder_file_rows (l l' : list string) :
  file_rows l = file_rows l' -> decoder l = decoder l'.
Proof.
  intros H. unfold decoder, read_fwf, raw_column, data_rows. rewrite H. reflexivity.
Qed.

Lemma all_chars_substring (p : ascii -> bool) (n m : nat) (s : string) :
  all_chars p s = true -> all_chars p (substring n m s) = true.
Proof.
  revert n m. induction s as [|c s IH]; intros [|n] [|m] H; simpl in *; auto;
    apply andb_true_iff in H as [Hc Hs]; auto.
  rewrite Hc. simpl. auto.
Qed.

Lemma all_chars_lstrip (p q : ascii -> bool) (s : string) :
  all_chars p s = true -> all_chars p (lstrip q s) = true.
Proof.
  induction s as [|c s IH]; simpl; auto.
  intros H. destruct (q c); [apply andb_true_iff in H as [_ H]; auto|exact H].
Qed.

Lemma all_chars_rstrip (p q : ascii -> bool) (s : string) :
  all_chars p s = true -> all_chars p (rstrip q s) = true.
Proof.
  induction s as [|c s IH]; simpl; auto.
  intros H. apply andb_true_iff in H as [Hc Hs]. specialize (IH Hs).
  destruct (rstrip q s) as [|c' r].
  - destruct (q c); simpl; auto. rewrite Hc. reflexivity.
  - simpl in *. rewrite Hc. exact IH.
Qed.

Lemma lstrip_all (p : ascii -> bool) (s : string) :
  all_chars p s = true -> lstrip p s = "".
Proof.
  induction s as [|c s IH]; simpl; auto.
  intros H. apply andb_true_iff in H as [Hc Hs]. rewrite Hc. auto.
Qed.

Lemma strip_all (p : ascii -> bool) (s : string) :
  all_chars p s = true -> strip p s = "".
Proof. intros H. unfold strip. rewrite lstrip_all by assumption. reflexivity. Qed.

Lemma all_chars_impl (p q : ascii -> bool) (s : string) :
  (forall c, p c = true -> q c = true) ->
  all_chars p s = true -> all_chars q s = true.
Proof.
  intros Hpq. induction s as [|c s IH]; simpl; auto.
  intros H. apply andb_true_iff in H as [Hc Hs].
  rewrite (Hpq _ Hc), (IH Hs). reflexivity.
Qed.

Lemma isspace_py_isspace (c : ascii) : isspace c = true -> py_isspace c = true.
Proof. destruct c as [[] [] [] [] [] [] [] []]; simpl; congruence. Qed.

(** A line of white space only gives an empty row. *)
Lemma blank_line_empty_row (line : string) :
  all_chars isspace line = true -> is_empty_row (fwf_fields line) = true.
Proof.
  intros H. unfold is_empty_row, fwf_fields.
  apply forallb_forall. intros f Hf.
  apply in_map_iff in Hf as ([from to] & <- & _).
  rewrite strip_all; [reflexivity|].
  unfold strip. apply all_chars_rstrip, all_chars_lstrip, all_chars_substring.
  apply (all_chars_impl isspace); [exact isspace_py_isspace|assumption].
Qed.

Example separator_line_is_empty :
  is_empty_row (fwf_fields (String "028" (String "160" ""))) = true /\
  is_empty_row (fwf_fields "x") = false.
Proof. split; vm_compute; reflexivity. Qed.

(** X2: a line of white space only, wherever it stands in the file (in
    the banner, between data lines, at the end), changes nothing: it is
    not counted among the header rows and gives no record. *)
Theorem blank_line_ignored (before after : list string) (line : string) :
  all_chars isspace line = true ->
  decoder (before ++ line :: after) = decoder (before ++ after).
Proof.
  intros H. apply decoder_file_rows. unfold file_rows.
  rewrite !map_app, !filter_app. f_equal. cbn [map filter].
  rewrite (blank_line_empty_row _ H). reflexivity.
Qed.

Lemma blank_line_ignored_witness :
  all_chars isspace (spaces 20) = true /\
  decoder (banner ++ spaces 20 :: [fwf_line "1" "0" "-1234#" "5#"]) =
  decoder (banner ++ [fwf_line "1" "0" "-1234#" "5#"]).
Proof.
  split; [reflexivity|].
  apply (blank_line_ignored banner [fwf_line "1" "0" "-1234#" "5#"] (spaces 20)).
  reflexivity.
Defined.

Lemma substring_prefix (n m k : nat) (s : string) :
  (n + m <= k)%nat -> substring n m (substring 0 k s) = substring n m s.
Proof.
  revert n m k. induction s as [|c s IH]; intros n m k H.
  - destruct k; reflexivity.
  - destruct k as [|k].
    + assert (n = O) by lia. assert (m = O) by lia. subst. reflexivity.
    + destruct n as [|n]; simpl.
      * destruct m as [|m]; [reflexivity|].
        f_equal. apply (IH O m k). lia.
      * apply IH. lia.
Qed.

Lemma colspecs_within :
  forall from to, In (from, to) colspecs -> (from <= to <= 135)%nat.
Proof.
  assert (H : forallb (fun '(from, to) => andb (Nat.leb from to) (Nat.leb to 135))
                      colspecs = true) by reflexivity.
  rewrite forallb_forall in H. intros from to Hin.
  specialize (H _ Hin). simpl in H.
  apply andb_true_iff in H as [H1 H2]. apply Nat.leb_le in H1, H2. lia.
Qed.

(** X3: whatever a line holds past its first 135 characters, the sum of
    the widths, is never read: cutting every line there leaves the run
    unchanged. *)
Theorem text_past_layout_ignored (lines : list string) :
  decoder (map (substring 0 135) lines) = decoder lines.
Proof.
  apply decoder_file_rows. unfold file_rows. rewrite map_map.
  f_equal. apply map_ext. intros line. unfold fwf_fields.
  apply map_ext_in. intros [from to] Hin.
  apply colspecs_within in Hin. unfold slice.
  rewrite substring_prefix by lia. reflexivity.
Qed.

(** ** Reading back a line laid out on the grid *)

Lemma spaces_length (n : nat) : String.length (spaces n) = n.
Proof. induction n; simpl; auto. Qed.

Lemma append_length (a b : string) :
  String.length (a ++ b) = (String.length a + String.length b)%nat.
Proof. induction a; simpl; auto. Qed.

Lemma rjust_length (w : nat) (s : string) :
  (String.length s <= w)%nat -> String.length (rjust w s) = w.
Proof. intros H. unfold rjust. rewrite append_length, spaces_length. lia. Qed.

Lemma substring_skip (a b : string) (k n m : nat) :
  String.length a = k -> substring (k + n) m (a ++ b) = substring n m b.
Proof.
  revert k. induction a as [|c a IH]; intros k H; simpl in H; subst k; simpl; auto.
Qed.

Lemma substring_take (a b : string) (m : nat) :
  String.length a = m -> substring 0 m (a ++ b) = a.
Proof.
  revert m. induction a as [|c a IH]; intros m H; simpl in H; subst m; simpl.
  - destruct b; reflexivity.
  - f_equal. auto.
Qed.

Lemma lstrip_spaces (n : nat) (s : string) :
  lstrip is_delimiter (spaces n ++ s) = lstrip is_delimiter s.
Proof. induction n; simpl; auto. Qed.

(** A right-aligned field is read back as it was. *)
Lemma strip_rjust (w : nat) (s : string) :
  strip is_delimiter s = s -> strip is_delimiter (rjust w s) = s.
Proof. intros H. unfold rjust, strip. rewrite lstrip_spaces. exact H. Qed.

Lemma field_of_line (pre post s : string) (from w : nat) :
  String.length pre = from -> (String.length s <= w)%nat ->
  strip is_delimiter s = s ->
  strip is_delimiter (slice from (from + w) (pre ++ rjust w s ++ post)) = s.
Proof.
  intros Hpre Hs Ht. unfold slice.
  replace (from + w - from)%nat with w by lia.
  replace from with (from + 0)%nat at 1 by lia.
  rewrite (substring_skip pre _ from 0 w Hpre).
  rewrite substring_take by (apply rjust_length; assumption).
  apply strip_rjust. assumption.
Qed.

Lemma append_assoc (a b c : string) : ((a ++ b) ++ c = a ++ (b ++ c))%string.
Proof. induction a; simpl; congruence. Qed.

(** X4: round trip through the layout.  Four fields without surrounding
    white space, no wider than their ranges (5, 5, 13 and 10 characters),
    written right-aligned on the fixed-width grid, are read back by the
    reader exactly as they were. *)
Theorem fields_read_back (n z e u : string) :
  strip is_delimiter n = n -> strip is_delimiter z = z ->
  strip is_delimiter e = e -> strip is_delimiter u = u ->
  (String.length n <= 5)%nat -> (String.length z <= 5)%nat ->
  (String.length e <= 13)%nat -> (String.length u <= 10)%nat ->
  map (fun k => nth k (fwf_fields (fwf_line n z e u)) "") usecols = [n; z; e; u].
Proof.
  intros Tn Tz Te Tu Ln Lz Le Lu.
  unfold usecols, fwf_fields. cbn [map nth colspecs colspecs_from widths Nat.add].
  unfold fwf_line.
  f_equal; [|f_equal; [|f_equal; [|f_equal]]].
  - apply (field_of_line (spaces 4) _ n 4 5); auto.
  - rewrite <- (append_assoc (spaces 4)).
    apply (field_of_line (spaces 4 ++ rjust 5 n) _ z 9 5); auto.
    rewrite append_length, spaces_length, rjust_length; auto.
  - rewrite <- (append_assoc (rjust 5 z)), <- (append_assoc (rjust 5 n)),
      <- (append_assoc (spaces 4)).
    apply (field_of_line (spaces 4 ++ rjust 5 n ++ rjust 5 z ++ spaces 40) _ e 54 13); auto.
    rewrite !append_length, !spaces_length, !rjust_length; auto.
  - rewrite <- (append_assoc (rjust 13 e)), <- (append_assoc (spaces 40)),
      <- (append_assoc (rjust 5 z)), <- (append_assoc (rjust 5 n)),
      <- (append_assoc (spaces 4)).
    replace (rjust 10 u) with (rjust 10 u ++ "")%string.
    + apply (field_of_line
               (spaces 4 ++ rjust 5 n ++ rjust 5 z ++ spaces 40 ++ rjust 13 e ++ spaces 1)
               "" u 68 10); auto.
      rewrite !append_length, !spaces_length, !rjust_length; auto.
    + clear. induction (rjust 10 u); simpl; congruence.
Qed.

Lemma fields_read_back_witness :
  map (fun k => nth k (fwf_fields (fwf_line "126" "82" "7867.453" "0.004#")) "") usecols =
  ["126"; "82"; "7867.453"; "0.004#"].
Proof.
  apply (fields_read_back "126" "82" "7867.453" "0.004#");
    try reflexivity; simpl; lia.
Defined.

(** ** Markers and the [known] flag *)

Lemma digit_not_hash (c : ascii) (d : Z) :
  digit_of c = Some d -> Ascii.eqb c "#" = false.
Proof.
  intros H. destruct (Ascii.eqb_spec c "#"%char) as [->|]; [discriminate|reflexivity].
Qed.

Lemma occurs_take_digits (s : string) :
  forall acc v n r, take_digits acc s = (v, n, r) -> occurs "#" s = occurs "#" r.
Proof.
  induction s as [|c s IH]; intros acc v n r H; simpl in H.
  - injection H as <- <- <-. reflexivity.
  - destruct (digit_of c) as [d|] eqn:Hd.
    + destruct (take_digits (acc * 10 + d) s) as [[v' n'] r'] eqn:Ht.
      injection H as <- <- <-. simpl.
      rewrite (digit_not_hash _ _ Hd). simpl. eapply IH; eauto.
    + injection H as <- <- <-. reflexivity.
Qed.

Lemma occurs_take_sign (s s1 : string) (neg : bool) :
  take_sign s = (neg, s1) -> occurs "#" s = occurs "#" s1.
Proof.
  unfold take_sign. destruct s as [|c s]; [intros H; injection H as <- <-; auto|].
  destruct c as [[] [] [] [] [] [] [] []]; intros H; injection H as <- <-; reflexivity.
Qed.

Lemma parse_exponent_no_hash (s : string) (e : Z) :
  parse_exponent s = Some e -> occurs "#" s = false.
Proof.
  unfold parse_exponent. destruct s as [|c s]; [reflexivity|].
  destruct (Ascii.eqb c "e" || Ascii.eqb c "E")%bool eqn:Hc; [|discriminate].
  destruct (take_sign s) as [neg s1] eqn:Hs.
  destruct (take_digits 0 s1) as [[v n] r] eqn:Ht.
  destruct n; [discriminate|]. destruct r; [|discriminate]. intros _.
  cbn [occurs]. rewrite (occurs_take_sign _ _ _ Hs), (occurs_take_digits _ _ _ _ _ Ht).
  simpl. rewrite orb_false_r.
  apply orb_true_iff in Hc as [Hc|Hc]; apply Ascii.eqb_eq in Hc; subst; reflexivity.
Qed.

Lemma parse_literal_no_hash (s : string) (v : value) :
  parse_literal s = Some v -> occurs "#" s = false.
Proof.
  unfold parse_literal.
  destruct (take_sign s) as [neg s1] eqn:Hs.
  destruct (take_digits 0 s1) as [[ip ni] s2] eqn:Ht.
  rewrite (occurs_take_sign _ _ _ Hs), (occurs_take_digits _ _ _ _ _ Ht).
  clear Hs Ht. destruct s2 as [|c s3]; [reflexivity|].
  destruct (Ascii.eqb_spec c "."%char) as [->|Hc].
  - destruct (take_digits ip s3) as [[m nf] s4] eqn:Hf.
    destruct (ni + nf)%nat; [discriminate|].
    destruct (parse_exponent s4) as [e|] eqn:He; [|discriminate]. intros _.
    simpl. rewrite (occurs_take_digits _ _ _ _ _ Hf).
    eapply parse_exponent_no_hash; eauto.
  - assert (Hgen : match ni with
                   | O => None
                   | S _ => match parse_exponent (String c s3) with
                            | Some e => decimal (signed neg ip) (wrap32 e)
                            | None => None
                            end
                   end = Some v -> occurs "#" (String c s3) = false).
    { destruct ni; [discriminate|].
      destruct (parse_exponent (String c s3)) as [e|] eqn:He; [|discriminate].
      intros _. eapply parse_exponent_no_hash; eauto. }
    destruct c as [[] [] [] [] [] [] [] []]; try exact Hgen; congruence.
Qed.

Lemma occurs_lstrip (p : ascii -> bool) (c : ascii) (s : string) :
  p c = false -> occurs c (lstrip p s) = occurs c s.
Proof.
  intros Hc. induction s as [|x s IH]; simpl; auto.
  destruct (p x) eqn:Hx; [|reflexivity].
  rewrite IH. destruct (Ascii.eqb_spec x c) as [->|]; [congruence|reflexivity].
Qed.

Lemma occurs_rstrip (p : ascii -> bool) (c : ascii) (s : string) :
  p c = false -> occurs c (rstrip p s) = occurs c s.
Proof.
  intros Hc. induction s as [|x s IH]; simpl; auto.
  destruct (rstrip p s) as [|y r] eqn:Hr.
  - simpl in IH. rewrite <- IH, orb_false_r.
    destruct (p x) eqn:Hx; simpl.
    + destruct (Ascii.eqb_spec x c) as [->|]; [congruence|reflexivity].
    + rewrite orb_false_r. reflexivity.
  - simpl. rewrite <- IH. reflexivity.
Qed.

Lemma lower_hash (c : ascii) : Ascii.eqb (lower c) "#" = Ascii.eqb c "#".
Proof. destruct c as [[] [] [] [] [] [] [] []]; reflexivity. Qed.

Lemma occurs_lowercase (s : string) : occurs "#" (lowercase s) = occurs "#" s.
Proof.
  induction s as [|c s IH]; [reflexivity|].
  cbn [lowercase occurs]. rewrite lower_hash, IH. reflexivity.
Qed.

Lemma existsb_eqb_no_hash (t : string) (l : list string) :
  forallb (fun x => negb (occurs "#" x)) l = true ->
  existsb (String.eqb t) l = true -> occurs "#" t = false.
Proof.
  intros Hl Ht. apply existsb_exists in Ht as (x & Hx & E).
  apply String.eqb_eq in E. subst x.
  rewrite forallb_forall in Hl. apply Hl in Hx.
  apply negb_true_iff in Hx. exact Hx.
Qed.

Lemma parse_infinity_no_hash (s : string) (v : value) :
  parse_infinity s = Some v -> occurs "#" s = false.
Proof.
  unfold parse_infinity. cbv zeta. rewrite <- occurs_lowercase.
  destruct (existsb _ _) eqn:H1.
  - intros _. eapply existsb_eqb_no_hash; [|exact H1]. reflexivity.
  - destruct (existsb _ ["-inf"; "-infinity"]) eqn:H2; [|discriminate].
    intros _. eapply existsb_eqb_no_hash; [|exact H2]. reflexivity.
Qed.

(** A numeric literal holds no marker. *)
Lemma parse_number_no_hash (s : string) (v : value) :
  parse_number s = Some v -> occurs "#" s = false.
Proof.
  unfold parse_number.
  destruct (parse_literal (strip isspace s)) as [w|] eqn:H.
  - intros _. apply parse_literal_no_hash in H.
    unfold strip in H.
    rewrite occurs_rstrip, occurs_lstrip in H by reflexivity. exact H.
  - apply parse_infinity_no_hash.
Qed.

Lemma str_replace_absent (c : ascii) (s : string) :
  occurs c s = false -> str_replace c "" s = s.
Proof.
  induction s as [|x s IH]; simpl; auto.
  intros H. apply orb_false_iff in H as [Hx Hs].
  rewrite Hx, IH by assumption. reflexivity.
Qed.

Lemma clean_unmarked (raw : string) :
  is_na raw = false -> occurs "#" raw = false -> clean raw = parse_number raw.
Proof.
  intros Hna Hno. unfold clean. rewrite Hna, str_replace_absent by assumption.
  destruct raw; [discriminate|reflexivity].
Qed.

Lemma stored_not_null (v0 v : value) : stored v0 v -> isnull v = isnull v0.
Proof. intros [->| ->]; [reflexivity|apply isnull_to_float]. Qed.

(** X5: how [known] and [E] go together on a row of a completed run.
    - A raw [E] field that holds a marker, wherever it stands, is written
      with [known = 0].
    - A row with [known = 1] has a raw field without marker, and its [E]
      is the number that field denotes; it is never empty.
    - A row with [known = 0] and a non-empty [E] had a marker in its raw
      field (the value was an estimate). *)
Theorem known_and_marker (lines : list string) (out : csv) (i : nat)
        (fields : list string) (row : list field) :
  decoder lines = Ok out ->
  nth_error (data_rows lines) i = Some fields ->
  nth_error (csv_rows out) i = Some row ->
  let raw := nth 11 fields "" in
  (occurs "#" raw = true -> nth 4 row Empty = Cell (VInt 0)) /\
  (nth 4 row Empty = Cell (VInt 1) ->
   occurs "#" raw = false /\
   exists v0 v, parse_number raw = Some v0 /\ stored v0 v /\
                nth 2 row Empty = Cell v) /\
  (nth 4 row Empty = Cell (VInt 0) -> nth 2 row Empty <> Empty ->
   occurs "#" raw = true).
Proof.
  intros H Hf Hrow raw.
  destruct (decoder_row _ _ _ _ _ H Hf Hrow)
    as (vN & vZ & vE & vU & vA & vD & vR & e0 & u0 & -> & _ & _ & He0 & HsE & _).
  fold raw in He0. cbn [nth].
  change (to_field (VInt (known_of (nth 11 fields "")))) with (Cell (VInt (known_of raw))).
  split; [|split].
  - intros Hocc. unfold known_of. destruct (is_na raw); [reflexivity|].
    destruct (parse_number raw) as [v|] eqn:Hp; [|reflexivity].
    apply parse_number_no_hash in Hp. congruence.
  - intros Hk. injection Hk as Hk. unfold known_of in Hk.
    destruct (is_na raw) eqn:Hna; [discriminate|].
    destruct (parse_number raw) as [v0|] eqn:Hp; [|discriminate].
    pose proof (parse_number_no_hash _ _ Hp) as Hno. split; [exact Hno|].
    rewrite (clean_unmarked _ Hna Hno), Hp in He0. injection He0 as <-.
    exists v0, vE. repeat split; auto.
    unfold to_field. rewrite (stored_not_null _ _ HsE).
    apply parse_number_not_str in Hp as [_ ->]. reflexivity.
  - intros Hk HE. injection Hk as Hk. unfold known_of in Hk.
    destruct (occurs "#" raw) eqn:Hocc; [reflexivity|]. exfalso.
    destruct (is_na raw) eqn:Hna.
    + unfold clean in He0. rewrite Hna in He0. injection He0 as <-.
      apply stored_nan in HsE. subst vE. apply HE. reflexivity.
    + rewrite (clean_unmarked _ Hna Hocc) in He0. rewrite He0 in Hk. discriminate.
Qed.

Lemma known_and_marker_witness :
  exists out fields row,
    decoder sample_file = Ok out /\
    nth_error (data_rows sample_file) 1 = Some fields /\
    nth_error (csv_rows out) 1 = Some row /\
    nth 4 row Empty = Cell (VInt 1) /\
    occurs "#" (nth 11 fields "") = false /\
    exists v0 v, parse_number (nth 11 fields "") = Some v0 /\ stored v0 v /\
                 nth 2 row Empty = Cell v.
Proof.
  eexists. eexists. eexists.
  split; [vm_compute; reflexivity|].
  split; [vm_compute; reflexivity|].
  split; [vm_compute; reflexivity|].
  split; [reflexivity|].
  refine (proj1 (proj2 (known_and_marker sample_file _ 1 _ _ _ _ _)) _);
    vm_compute; reflexivity.
Defined.

(** ** What makes the decoder raise *)

Lemma sequence_map_some {A B : Type} (f : A -> option B) (l : list A) :
  (forall a, In a l -> f a <> None) -> exists vs, sequence (map f l) = Some vs.
Proof.
  induction l as [|a l IH]; intros H; simpl; [eauto|].
  destruct (f a) as [b|] eqn:Hb.
  - destruct IH as [vs ->]; [intros x Hx; apply H; right; assumption|]. eauto.
  - exfalso. apply (H a); [left; reflexivity|assumption].
Qed.

Lemma data_rows_enough (lines : list string) :
  data_rows lines <> [] -> Nat.leb (List.length (file_rows lines)) header = false.
Proof.
  intros H. destruct (data_rows lines) as [|fields rest] eqn:Hd; [congruence|].
  apply (data_row_enough_rows lines 0 fields). rewrite Hd. reflexivity.
Qed.

Lemma numeric_column_no_accessor (k : nat) (lines : list string) :
  data_rows lines <> [] ->
  forallb (fun fields => is_numeric_field (nth k fields "")) (data_rows lines) = true ->
  str_accessor (infer_types (raw_column k lines)) = Raise AttributeError.
Proof.
  intros Hne Hall.
  destruct (sequence_map_some numeric_field (raw_column k lines)) as [vs Hvs].
  { intros raw Hin. unfold raw_column in Hin.
    apply in_map_iff in Hin as (fields & <- & Hin).
    rewrite forallb_forall in Hall. specialize (Hall _ Hin).
    unfold is_numeric_field in Hall.
    destruct (numeric_field (nth k fields "")); [discriminate|discriminate]. }
  apply (infer_types_numeric _ vs); [|assumption].
  unfold raw_column. intros E. apply map_eq_nil in E. contradiction.
Qed.

(** X6: the markers are needed.  When the file has data and every raw
    [E] field is a number or is missing (no marker, no text), the column
    is read as numbers and the run raises [AttributeError] at line 16;
    the same holds for [U(E)] at line 17, unless line 16 has raised
    [ValueError] before. *)
Theorem numeric_energy_column_raises (lines : list string) (k : nat) :
  data_rows lines <> [] ->
  k = 11%nat \/ k = 13%nat ->
  forallb (fun fields => is_numeric_field (nth k fields "")) (data_rows lines) = true ->
  decoder lines = Raise AttributeError \/
  (k = 13%nat /\ decoder lines = Raise ValueError).
Proof.
  intros Hne Hk Hall.
  pose proof (numeric_column_no_accessor k lines Hne Hall) as Hacc.
  rewrite decoder_eq, (data_rows_enough _ Hne). cbv zeta.
  destruct Hk as [-> | ->].
  - rewrite Hacc. left. reflexivity.
  - destruct (str_accessor_cases (infer_types (raw_column 11 lines))) as [Hs|Hs];
      rewrite Hs; cbn [bind]; [|auto].
    destruct (to_numeric_raise_cases
                (series_str_replace "#" "" (infer_types (raw_column 11 lines))))
      as [[e He]|He]; rewrite He; cbn [bind]; [|auto].
    rewrite Hacc. left. reflexivity.
Qed.

Lemma numeric_energy_column_raises_witness :
  data_rows sample_numeric_file <> [] /\
  forallb (fun fields => is_numeric_field (nth 11 fields ""))
          (data_rows sample_numeric_file) = true /\
  (decoder sample_numeric_file = Raise AttributeError \/
   (11%nat = 13%nat /\ decoder sample_numeric_file = Raise ValueError)).
Proof.
  split; [vm_compute; discriminate|].
  split; [vm_compute; reflexivity|].
  apply (numeric_energy_column_raises sample_numeric_file 11).
  - vm_compute; discriminate.
  - left; reflexivity.
  - vm_compute; reflexivity.
Defined.






Lemma mapM_raise_at {A B : Type} (f : A -> result B) (l : list A) (i : nat) (a : A) (e : exn) :
  nth_error l i = Some a -> f a = Raise e -> exists e', mapM f l = Raise e'.
Proof.
  revert i. induction l as [|x l IH]; intros [|i] Hi Ha; simpl in *; try discriminate.
  - injection Hi as ->. rewrite Ha. simpl. eauto.
  - destruct (f x); simpl; eauto.
    destruct (IH _ Hi Ha) as [e' ->]. simpl. eauto.
Qed.

(** A text field makes its column a column of strings. *)
Lemma text_field_read (l : list string) (i : nat) (raw : string) :
  nth_error l i = Some raw -> is_text_field raw = true ->
  nth_error (infer_types l) i = Some (VStr raw).
Proof.
  intros Hi Ht. unfold is_text_field, is_numeric_field in Ht.
  apply andb_true_iff in Ht as [Ht _].
  apply andb_true_iff in Ht as [Hna Hnum].
  apply negb_true_iff in Hna, Hnum.
  destruct (numeric_field raw) eqn:Hn; [discriminate|].
  unfold infer_types. rewrite sequence_none.
  - rewrite (nth_error_map_some _ _ _ _ Hi). unfold object_field. rewrite Hna. reflexivity.
  - rewrite <- Hn. apply in_map. eapply nth_error_In; eauto.
Qed.

Lemma read_as_present (raw : string) (v : value) :
  is_na raw = false -> read_as raw v -> isnull v = false.
Proof.
  intros Hna [->|(v0 & Hv0 & Hst)].
  - unfold object_field. rewrite Hna. reflexivity.
  - rewrite (stored_not_null _ _ Hst). unfold numeric_field in Hv0. rewrite Hna in Hv0.
    apply parse_number_not_str in Hv0. tauto.
Qed.

Lemma sub_text_raises (x y : value) :
  isnull x = false -> isnull y = false ->
  is_str x = true \/ is_str y = true ->
  arith Sub x y = Raise TypeError.
Proof.
  unfold arith. intros -> ->. simpl.
  destruct x as [a|fa|sa], y as [b|fb|sb]; simpl; intros [H|H];
    try discriminate; reflexivity.
Qed.

(** X8: text among the counts is fatal.  When the [N] or the [Z] field
    of a data line is text (not a number, not a missing-value token, not
    a boolean literal) and the other count of that line is present, the
    run raises and writes no file. *)
Theorem text_count_is_fatal (lines : list string) (i : nat) (fields : list string) :
  nth_error (data_rows lines) i = Some fields ->
  (is_text_field (nth 2 fields "") = true /\ is_na (nth 3 fields "") = false) \/
  (is_text_field (nth 3 fields "") = true /\ is_na (nth 2 fields "") = false) ->
  exists e, decoder lines = Raise e.
Proof.
  intros Hf Htext.
  destruct (infer_types_nth _ _ _ (raw_column_nth 2 _ _ _ Hf)) as (vN & HvN & HrN).
  destruct (infer_types_nth _ _ _ (raw_column_nth 3 _ _ _ Hf)) as (vZ & HvZ & HrZ).
  assert (Hsub : arith Sub vN vZ = Raise TypeError).
  { destruct Htext as [[Ht Hna]|[Ht Hna]].
    - pose proof (text_field_read _ _ _ (raw_column_nth 2 _ _ _ Hf) Ht) as HN.
      rewrite HvN in HN. injection HN as ->.
      apply sub_text_raises; auto. eapply read_as_present; eauto.
    - pose proof (text_field_read _ _ _ (raw_column_nth 3 _ _ _ Hf) Ht) as HZ.
      rewrite HvZ in HZ. injection HZ as ->.
      apply sub_text_raises; auto. eapply read_as_present; eauto. }
  assert (Hcol : exists e, series_arith Sub (infer_types (raw_column 2 lines))
                                        (infer_types (raw_column 3 lines)) = Raise e).
  { unfold series_arith.
    eapply (mapM_raise_at _ _ i (vN, vZ)); [|exact Hsub].
    apply nth_error_combine; assumption. }
  destruct Hcol as [e He].
  rewrite decoder_eq, (data_row_enough_rows _ _ _ Hf). cbv zeta.
  destruct (str_accessor _) as [s|]; cbn [bind]; [|eauto].
  destruct (to_numeric errors_raise (series_str_replace "#" "" s)) as [x|];
    cbn [bind]; [|eauto].
  destruct (str_accessor _) as [t|]; cbn [bind]; [|eauto].
  destruct (to_numeric errors_raise (series_str_replace "#" "" t)) as [u|];
    cbn [bind]; [|eauto].
  destruct (series_arith Add _ _) as [a|]; cbn [bind]; [|eauto].
  rewrite He. cbn [bind]. eauto.
Qed.

Lemma text_count_is_fatal_witness :
  exists fields,
    nth_error (data_rows sample_text_count_file) 1 = Some fields /\
    is_text_field (nth 2 fields "") = true /\ is_na (nth 3 fields "") = false /\
    exists e, decoder sample_text_count_file = Raise e.
Proof.
  eexists. split; [vm_compute; reflexivity|].
  split; [reflexivity|]. split; [reflexivity|].
  apply (text_count_is_fatal sample_text_count_file 1 _ eq_refl).
  left. split; reflexivity.
Defined.

(** ** The ratio and the keys of integer rows *)

Lemma to_field_cell (v w : value) : to_field v = Cell w -> v = w /\ isnull w = false.
Proof.
  unfold to_field. destruct (isnull v) eqn:Hv; [discriminate|].
  intros H; injection H as <-. auto.
Qed.

(** A row of a completed run whose counts are integers. *)
Lemma decoder_int_row (lines : list string) (out : csv) (i : nat) (row : list field)
      (n z : Z) :
  decoder lines = Ok out ->
  nth_error (csv_rows out) i = Some row ->
  nth 0 row Empty = Cell (VInt n) -> nth 1 row Empty = Cell (VInt z) ->
  Z.abs n < 10 ^ 5 /\ Z.abs z < 10 ^ 5 /\
  nth 5 row Empty = Cell (VInt (n + z)) /\
  nth 6 row Empty = Cell (VInt (n - z)) /\
  exists vR, arith Div (VInt n) (VInt z) = Ok vR /\ nth 7 row Empty = to_field vR.
Proof.
  intros H Hrow HN HZ.
  assert (Hi : (i < List.length (data_rows lines))%nat).
  { rewrite <- (decoder_length _ _ H). apply nth_error_Some. congruence. }
  destruct (nth_error (data_rows lines) i) as [fields|] eqn:Hf;
    [|apply nth_error_Some in Hi; contradiction].
  destruct (decoder_row _ _ _ _ _ H Hf Hrow)
    as (vN & vZ & vE & vU & vA & vD & vR & e0 & u0 & -> & HrN & HrZ & _ & _ & _ & _
        & HA & HD & HR).
  cbn [nth] in *.
  apply to_field_cell in HN as [-> _]. apply to_field_cell in HZ as [-> _].
  destruct (data_row_is_line _ _ _ Hf) as [line ->].
  apply (count_bound line 2 4 9) in HrN; [|reflexivity|simpl; lia].
  apply (count_bound line 3 9 14) in HrZ; [|reflexivity|simpl; lia].
  change (Ok (VInt (wrap64 (n + z))) = Ok vA) in HA.
  change (Ok (VInt (wrap64 (n - z))) = Ok vD) in HD.
  rewrite wrap64_small in HA, HD by lia.
  injection HA as <-. injection HD as <-.
  repeat split; auto. exists vR. auto.
Qed.



(** X10: distinct nuclides have distinct places in the chart.  On a
    completed run, two rows with integer counts that differ in [N] or in
    [Z] are written with a different [A] or a different [N-Z]: the pair
    of derived keys determines the nuclide. *)
Theorem keys_determine_nuclide (lines : list string) (out : csv) (i j : nat)
        (row1 row2 : list field) (n1 z1 n2 z2 : Z) :
  decoder lines = Ok out ->
  nth_error (csv_rows out) i = Some row1 ->
  nth_error (csv_rows out) j = Some row2 ->
  nth 0 row1 Empty = Cell (VInt n1) -> nth 1 row1 Empty = Cell (VInt z1) ->
  nth 0 row2 Empty = Cell (VInt n2) -> nth 1 row2 Empty = Cell (VInt z2) ->
  n1 <> n2 \/ z1 <> z2 ->
  nth 5 row1 Empty <> nth 5 row2 Empty \/ nth 6 row1 Empty <> nth 6 row2 Empty.
Proof.
  intros H Hr1 Hr2 HN1 HZ1 HN2 HZ2 Hne.
  destruct (decoder_int_row _ _ _ _ _ _ H Hr1 HN1 HZ1) as (_ & _ & HA1 & HD1 & _).
  destruct (decoder_int_row _ _ _ _ _ _ H Hr2 HN2 HZ2) as (_ & _ & HA2 & HD2 & _).
  rewrite HA1, HA2, HD1, HD2.
  destruct (Z.eq_dec (n1 + z1) (n2 + z2)) as [EA|NA].
  - right. intros E. injection E as ED. lia.
  - left. intros E. injection E as E. contradiction.
Qed.

Lemma keys_determine_nuclide_witness :
  exists out row1 row2,
    decoder sample_file = Ok out /\
    nth_error (csv_rows out) 1 = Some row1 /\
    nth_error (csv_rows out) 2 = Some row2 /\
    nth 0 row1 Empty = Cell (VInt 2) /\ nth 1 row1 Empty = Cell (VInt 2) /\
    nth 0 row2 Empty = Cell (VInt 3) /\ nth 1 row2 Empty = Cell (VInt 2) /\
    (nth 5 row1 Empty <> nth 5 row2 Empty \/ nth 6 row1 Empty <> nth 6 row2 Empty).
Proof.
  eexists. eexists. eexists.
  split; [vm_compute; reflexivity|].
  split; [vm_compute; reflexivity|].
  split; [vm_compute; reflexivity|].
  split; [reflexivity|]. split; [reflexivity|].
  split; [reflexivity|]. split; [reflexivity|].
  eapply (keys_determine_nuclide sample_file _ 1 2 _ _ 2 2 3 2);
    try (vm_compute; reflexivity).
  left. discriminate.
Defined.

(** ** The renderer in closed form *)

Lemma arith_div_text (x : value) :
  is_str x = true -> arith Div x (VInt 1000) = Raise TypeError.
Proof. destruct x; try discriminate. reflexivity. Qed.

Lemma arith_div_scaled (x : value) :
  is_str x = false -> arith Div x (VInt 1000) = Ok (scaled x).
Proof.
  intros H. unfold scaled. destruct (arith_div_numeric _ H) as [v ->]. reflexivity.
Qed.

(** A scaled value is a float. *)
Lemma scaled_float (x : value) : exists f, scaled x = VFloat f.
Proof.
  unfold scaled, arith. destruct (isnull x || isnull (VInt 1000))%bool; [eauto|].
  destruct x; simpl; eauto.
Qed.

Lemma convert_E_eq (df : dataframe) :
  convert_E df =
  if existsb (fun r => is_str (rec_E r)) df then Raise TypeError
  else Ok (map (fun r => set_E (scaled (rec_E r)) r) df).
Proof.
  unfold convert_E. induction df as [|r df IH]; [reflexivity|].
  cbn [mapM existsb map]. destruct (is_str (rec_E r)) eqn:Hr.
  - rewrite (arith_div_text _ Hr). reflexivity.
  - rewrite (arith_div_scaled _ Hr). cbn [bind orb]. rewrite IH.
    destruct (existsb _ df); reflexivity.
Qed.

Lemma convert_UE_eq (df : dataframe) :
  convert_UE df =
  if existsb (fun r => is_str (rec_UE r)) df then Raise TypeError
  else Ok (map (fun r => set_UE (scaled (rec_UE r)) r) df).
Proof.
  unfold convert_UE. induction df as [|r df IH]; [reflexivity|].
  cbn [mapM existsb map]. destruct (is_str (rec_UE r)) eqn:Hr.
  - rewrite (arith_div_text _ Hr). reflexivity.
  - rewrite (arith_div_scaled _ Hr). cbn [bind orb]. rewrite IH.
    destruct (existsb _ df); reflexivity.
Qed.

Lemma cell_value_converted (df : dataframe) (nz a : Z) :
  cell_value (map (fun r => set_UE (scaled (rec_UE r)) r)
                  (map (fun r => set_E (scaled (rec_E r)) r) df)) nz a =
  scaled_cell df nz a.
Proof.
  unfold cell_value, scaled_cell. induction df as [|r df IH]; [reflexivity|].
  cbn [map find].
  change (key_of (set_UE (scaled (rec_UE (set_E (scaled (rec_E r)) r)))
                         (set_E (scaled (rec_E r)) r))) with (key_of r).
  destruct (key_eqb (key_of r) (nz, a)); [reflexivity|exact IH].
Qed.

Lemma existsb_map_comp {A B : Type} (f : A -> B) (p : B -> bool) (l : list A) :
  existsb p (map f l) = existsb (fun a => p (f a)) l.
Proof. induction l as [|a l IH]; simpl; congruence. Qed.

(** The script up to the pivot, in one expression of the frame read. *)
Lemma pivoted_eq (df : dataframe) :
  pivoted df =
  if has_text df then Raise TypeError
  else if has_duplicate (map key_of df) then Raise ValueError
       else Ok (grid_of df).
Proof.
  unfold pivoted, has_text. rewrite convert_E_eq.
  destruct (existsb (fun r => is_str (rec_E r)) df); [reflexivity|].
  cbn [bind orb]. rewrite convert_UE_eq.
  rewrite existsb_map_comp. cbn [rec_UE set_E].
  destruct (existsb (fun r => is_str (rec_UE r)) df); [reflexivity|].
  cbn [bind]. unfold pivot. rewrite !map_map.
  change (map (fun r => key_of (set_UE (scaled (rec_UE (set_E (scaled (rec_E r)) r)))
                                       (set_E (scaled (rec_E r)) r))) df)
    with (map key_of df).
  destruct (has_duplicate (map key_of df)); [reflexivity|].
  unfold grid_of. f_equal. cbn [rec_NmZ rec_A set_E set_UE].
  f_equal. apply map_ext. intros nz. apply map_ext. intros a.
  rewrite <- cell_value_converted, !map_map. reflexivity.
Qed.

Lemma np_exp_float (exp_fin : Q -> float64) (v : value) :
  is_str v = false -> exists z, np_exp exp_fin v = Ok z.
Proof. destruct v; try discriminate; unfold np_exp; simpl; eauto. Qed.

Lemma scaled_cell_not_text (df : dataframe) (nz a : Z) :
  is_str (scaled_cell df nz a) = false.
Proof.
  unfold scaled_cell. destruct (find _ df) as [r|]; [|reflexivity].
  destruct (scaled_float (rec_E r)) as [f ->]. reflexivity.
Qed.

(** The plot of a grid made by the pivot never raises. *)
Lemma plot_surface_grid_of (exp_fin : Q -> float64) (df : dataframe) :
  exists zs,
    plot_surface exp_fin (grid_of df) =
    Ok {| xpos := fst (meshgrid (List.length (grid_columns (grid_of df)))
                                (List.length (grid_index (grid_of df))));
          ypos := snd (meshgrid (List.length (grid_columns (grid_of df)))
                                (List.length (grid_index (grid_of df))));
          zvalues := zs |} /\
    Forall2 (Forall2 (fun v z => np_exp exp_fin v = Ok z)) (grid_values (grid_of df)) zs.
Proof.
  destruct (mapM_total (mapM (np_exp exp_fin)) (grid_values (grid_of df))) as [zs Hzs].
  { apply Forall_forall. intros row Hrow. apply mapM_total.
    apply Forall_forall. intros v Hv. apply np_exp_float.
    unfold grid_of, grid_values in Hrow.
    apply in_map_iff in Hrow as (nz & <- & _).
    apply in_map_iff in Hv as (a & <- & _). apply scaled_cell_not_text. }
  exists zs. split.
  - unfold plot_surface. rewrite Hzs. reflexivity.
  - apply mapM_Forall2 in Hzs.
    eapply Forall2_impl; [|exact Hzs]. intros row zrow. apply mapM_Forall2.
Qed.

(** ** How a run of the renderer ends *)

(** X11: the renderer raises [TypeError] when the column [E] or the
    column [U(E)] holds text; otherwise it raises [ValueError] when two
    rows have the same pair (N-Z, A), whatever their energies; otherwise
    the three arrays for [plot_surface] are computed without error,
    missing energies and empty cells included. *)
Theorem renderer_outcome (exp_fin : Q -> float64) (df : dataframe) :
  if has_text df then renderer exp_fin df = Raise TypeError
  else if has_duplicate (map key_of df) then renderer exp_fin df = Raise ValueError
       else exists s, renderer exp_fin df = Ok s.
Proof.
  rewrite renderer_pivoted, pivoted_eq.
  destruct (has_text df); [reflexivity|].
  destruct (has_duplicate (map key_of df)); [reflexivity|].
  cbn [bind]. destruct (plot_surface_grid_of exp_fin df) as (zs & -> & _). eauto.
Qed.

Lemma nth_error_seq0 (n i : nat) : (i < n)%nat -> nth_error (seq 0 n) i = Some i.
Proof.
  intros H. rewrite (nth_error_nth' _ O) by (rewrite length_seq; assumption).
  rewrite seq_nth by assumption. reflexivity.
Qed.

Lemma nth_error_repeat_some {A : Type} (a : A) (n j : nat) :
  (j < n)%nat -> nth_error (repeat a n) j = Some a.
Proof.
  revert j. induction n as [|n IH]; intros [|j] H; simpl; try lia; auto.
  apply IH. lia.
Qed.

Lemma Forall2_Forall2_shape {A B : Type} (R : A -> B -> Prop) (nrows ncols : nat)
      (m : list (list A)) (m' : list (list B)) :
  Forall2 (Forall2 R) m m' -> has_shape nrows ncols m -> has_shape nrows ncols m'.
Proof.
  intros H [Hn Hc]. split.
  - rewrite <- (Forall2_length H). assumption.
  - clear Hn. induction H as [|row row' m m' Hrow _ IH]; constructor.
    + inversion Hc; subst. symmetry. rewrite <- (Forall2_length Hrow). reflexivity.
    + apply IH. inversion Hc; assumption.
Qed.

Lemma grid_of_shape (df : dataframe) :
  has_shape (List.length (grid_index (grid_of df)))
            (List.length (grid_columns (grid_of df))) (grid_values (grid_of df)).
Proof.
  unfold grid_of, has_shape. cbn [grid_index grid_columns grid_values]. split.
  - apply length_map.
  - apply Forall_forall. intros row Hrow.
    apply in_map_iff in Hrow as (nz & <- & _). apply length_map.
Qed.

Lemma renderer_ok_inv (exp_fin : Q -> float64) (df : dataframe) (s : surface) :
  renderer exp_fin df = Ok s ->
  pivoted df = Ok (grid_of df) /\ plot_surface exp_fin (grid_of df) = Ok s.
Proof.
  rewrite renderer_pivoted, pivoted_eq.
  destruct (has_text df); [discriminate|].
  destruct (has_duplicate (map key_of df)); [discriminate|]. auto.
Qed.

(** X12: what is handed to [plot_surface].  When the renderer returns,
    the three arrays [xpos], [ypos] and the z-values have the same
    shape, one row per distinct N-Z and one column per distinct A; at
    row [i] and column [j], [xpos] holds [j], [ypos] holds [i], and the
    z-value is the exponential of the [E / 1000] of the cell labelled by
    the [i]-th smallest N-Z and the [j]-th smallest A. *)
Theorem plot_arrays (exp_fin : Q -> float64) (df : dataframe) (s : surface) :
  renderer exp_fin df = Ok s ->
  let index := distinct_sorted (map rec_NmZ df) in
  let columns := distinct_sorted (map rec_A df) in
  has_shape (List.length index) (List.length columns) (xpos s) /\
  has_shape (List.length index) (List.length columns) (ypos s) /\
  has_shape (List.length index) (List.length columns) (zvalues s) /\
  forall i j nz a,
    nth_error index i = Some nz -> nth_error columns j = Some a ->
    entry (xpos s) i j = Some j /\
    entry (ypos s) i j = Some i /\
    exists z, np_exp exp_fin (scaled_cell df nz a) = Ok z /\
              entry (zvalues s) i j = Some z.
Proof.
  intros H index columns.
  apply renderer_ok_inv in H as [_ H].
  destruct (plot_surface_grid_of exp_fin df) as (zs & Hs & Hz).
  rewrite Hs in H. injection H as <-.
  cbn [xpos ypos zvalues meshgrid fst snd grid_of grid_index grid_columns].
  fold index columns.
  split; [|split; [|split]].
  - split; [rewrite length_map, length_seq; reflexivity|].
    apply Forall_forall. intros row Hrow.
    apply in_map_iff in Hrow as (k & <- & _). apply length_seq.
  - split; [rewrite length_map, length_seq; reflexivity|].
    apply Forall_forall. intros row Hrow.
    apply in_map_iff in Hrow as (k & <- & _). apply repeat_length.
  - exact (Forall2_Forall2_shape _ _ _ _ _ Hz (grid_of_shape df)).
  - intros i j nz a Hi Hj.
    assert (Hil : (i < List.length index)%nat) by (apply nth_error_Some; congruence).
    assert (Hjl : (j < List.length columns)%nat) by (apply nth_error_Some; congruence).
    unfold entry. split; [|split].
    + rewrite nth_error_map, (nth_error_seq0 _ _ Hil). simpl.
      apply nth_error_seq0. assumption.
    + rewrite nth_error_map, (nth_error_seq0 _ _ Hil). simpl.
      apply nth_error_repeat_some. assumption.
    + assert (Hrow : nth_error (grid_values (grid_of df)) i =
                     Some (map (scaled_cell df nz) columns)).
      { unfold grid_of. cbn [grid_values]. fold index columns.
        rewrite nth_error_map, Hi. reflexivity. }
      destruct (Forall2_nth_error_l _ _ _ Hz _ _ Hrow) as (zrow & Hzrow & Hrel).
      assert (Hcell : nth_error (map (scaled_cell df nz) columns) j =
                      Some (scaled_cell df nz a))
        by (rewrite nth_error_map, Hj; reflexivity).
      destruct (Forall2_nth_error_l _ _ _ Hrel _ _ Hcell) as (z & Hzj & Hexp).
      exists z. rewrite Hzrow. auto.
Qed.

Lemma plot_arrays_witness :
  exists s,
    renderer (fun q => Fin q) sample_frame = Ok s /\
    has_shape 3 2 (xpos s) /\ has_shape 3 2 (ypos s) /\ has_shape 3 2 (zvalues s).
Proof.
  eexists. split; [vm_compute; reflexivity|].
  destruct (plot_arrays (fun q => Fin q) sample_frame _ eq_refl) as (Hx & Hy & Hz & _).
  exact (conj Hx (conj Hy Hz)).
Defined.

(** ** What the grid holds *)

Lemma pivoted_ok_inv (df : dataframe) (g : grid) :
  pivoted df = Ok g ->
  has_text df = false /\ has_duplicate (map key_of df) = false /\ g = grid_of df.
Proof.
  rewrite pivoted_eq. destruct (has_text df); [discriminate|].
  destruct (has_duplicate (map key_of df)); [discriminate|].
  intros H; injection H as <-. auto.
Qed.

Lemma grid_cell_grid_of (df : dataframe) (nz a : Z) (v : value) :
  grid_cell (grid_of df) nz a = Some v -> v = scaled_cell df nz a.
Proof.
  unfold grid_cell, grid_of. cbn [grid_index grid_columns grid_values].
  destruct (position nz _) as [i|] eqn:Hi; [|discriminate].
  destruct (position a _) as [j|] eqn:Hj; [|discriminate].
  rewrite (nth_error_map_some _ _ _ _ (position_nth _ _ _ Hi)).
  rewrite (nth_error_map_some _ _ _ _ (position_nth _ _ _ Hj)).
  congruence.
Qed.

Lemma no_text_E (df : dataframe) (r : nuclide) :
  has_text df = false -> In r df -> is_str (rec_E r) = false.
Proof.
  unfold has_text. intros H Hr. apply orb_false_iff in H as [H _].
  destruct (is_str (rec_E r)) eqn:E; [|reflexivity].
  assert (existsb (fun r => is_str (rec_E r)) df = true)
    by (apply existsb_exists; eauto).
  congruence.
Qed.

(** X13: the grid holds what the records give, and nothing else.  When
    the pivot is reached and succeeds, the row labels are exactly the
    N-Z values of the records, the column labels exactly their A values,
    and every cell that is not empty holds the [E / 1000] of a record
    with the labels of that cell as its keys. *)
Theorem grid_holds_records_only (df : dataframe) (g : grid) :
  pivoted df = Ok g ->
  (forall nz, In nz (grid_index g) <-> exists r, In r df /\ rec_NmZ r = nz) /\
  (forall a, In a (grid_columns g) <-> exists r, In r df /\ rec_A r = a) /\
  (forall nz a v,
     grid_cell g nz a = Some v -> isnull v = false ->
     exists r, In r df /\ key_of r = (nz, a) /\
               arith Div (rec_E r) (VInt 1000) = Ok v).
Proof.
  intros H. apply pivoted_ok_inv in H as (Htext & _ & ->).
  split; [|split].
  - intros nz. unfold grid_of. cbn [grid_index].
    rewrite distinct_sorted_In, in_map_iff. split; intros (r & H1 & H2); eauto.
  - intros a. unfold grid_of. cbn [grid_columns].
    rewrite distinct_sorted_In, in_map_iff. split; intros (r & H1 & H2); eauto.
  - intros nz a v Hcell Hv. apply grid_cell_grid_of in Hcell. subst v.
    unfold scaled_cell in *.
    destruct (find (fun r => key_eqb (key_of r) (nz, a)) df) as [r|] eqn:Hfind;
      [|discriminate].
    apply find_some in Hfind as [Hr Hk]. apply key_eqb_eq in Hk.
    exists r. repeat split; auto.
    apply arith_div_scaled. eapply no_text_E; eauto.
Qed.

Lemma grid_holds_records_only_witness :
  exists g,
    pivoted sample_frame = Ok g /\
    (forall nz, In nz (grid_index g) <-> exists r, In r sample_frame /\ rec_NmZ r = nz) /\
    (forall a, In a (grid_columns g) <-> exists r, In r sample_frame /\ rec_A r = a) /\
    (forall nz a v,
       grid_cell g nz a = Some v -> isnull v = false ->
       exists r, In r sample_frame /\ key_of r = (nz, a) /\
                 arith Div (rec_E r) (VInt 1000) = Ok v).
Proof.
  eexists. split; [vm_compute; reflexivity|].
  exact (grid_holds_records_only sample_frame _ eq_refl).
Defined.

(** ** The order of the rows *)

Lemma existsb_Permutation {A : Type} (p : A -> bool) (l l' : list A) :
  Permutation l l' -> existsb p l = existsb p l'.
Proof.
  induction 1 as [|x l l' _ IH|x y l|l l' l'' _ IH1 _ IH2]; simpl.
  - reflexivity.
  - rewrite IH. reflexivity.
  - destruct (p x), (p y); reflexivity.
  - congruence.
Qed.

Lemma has_duplicate_Permutation (l l' : list (Z * Z)) :
  Permutation l l' -> has_duplicate l = has_duplicate l'.
Proof.
  intros H.
  destruct (has_duplicate l) eqn:H1, (has_duplicate l') eqn:H2; auto.
  - apply has_duplicate_NoDup in H2.
    apply (Permutation_NoDup (Permutation_sym H)) in H2.
    apply has_duplicate_NoDup in H2. congruence.
  - apply has_duplicate_NoDup in H1.
    apply (Permutation_NoDup H) in H1.
    apply has_duplicate_NoDup in H1. congruence.
Qed.

(** Two increasing lists with the same elements are the same list. *)
Lemma sorted_ext (l1 l2 : list Z) :
  StronglySorted Z.lt l1 -> StronglySorted Z.lt l2 ->
  (forall x, In x l1 <-> In x l2) -> l1 = l2.
Proof.
  intros H1. revert l2. induction H1 as [|x l1 Hs1 IH Hx]; intros l2 H2 Hin.
  - destruct l2 as [|y l2]; [reflexivity|].
    exfalso. apply (Hin y). left; reflexivity.
  - destruct H2 as [|y l2 Hs2 Hy].
    + exfalso. apply (Hin x). left; reflexivity.
    + rewrite Forall_forall in Hx, Hy.
      assert (Hxy : x = y).
      { destruct (proj1 (Hin x) (or_introl eq_refl)) as [E|Hxin]; [auto|].
        destruct (proj2 (Hin y) (or_introl eq_refl)) as [E|Hyin]; [auto|].
        specialize (Hx _ Hyin). specialize (Hy _ Hxin). lia. }
      subst y. f_equal. apply IH; [assumption|].
      intros z. split; intros Hz.
      * destruct (proj1 (Hin z) (or_intror Hz)) as [E|Hz']; [|assumption].
        specialize (Hx _ Hz). lia.
      * destruct (proj2 (Hin z) (or_intror Hz)) as [E|Hz']; [|assumption].
        specialize (Hy _ Hz). lia.
Qed.

Lemma distinct_sorted_Permutation (l l' : list Z) :
  Permutation l l' -> distinct_sorted l = distinct_sorted l'.
Proof.
  intros H. apply sorted_ext; try apply distinct_sorted_sorted.
  intros x. rewrite !distinct_sorted_In. split; apply Permutation_in;
    [assumption|apply Permutation_sym; assumption].
Qed.

(** With unique keys, [find] returns the one record that has the key. *)
Lemma find_unique (df : dataframe) (r : nuclide) (k : Z * Z) :
  has_duplicate (map key_of df) = false -> In r df -> key_of r = k ->
  find (fun x => key_eqb (key_of x) k) df = Some r.
Proof.
  intros Hd Hin <-. induction df as [|x df IH]; simpl in *; [contradiction|].
  apply orb_false_iff in Hd as [Hx Hd].
  destruct (key_eqb (key_of x) (key_of r)) eqn:E.
  - destruct Hin as [->|Hin]; [reflexivity|].
    apply key_eqb_eq in E.
    assert (existsb (key_eqb (key_of x)) (map key_of df) = true).
    { apply existsb_key. rewrite E. apply in_map. assumption. }
    congruence.
  - destruct Hin as [->|Hin].
    + rewrite (proj2 (key_eqb_eq _ _) eq_refl) in E. discriminate.
    + apply IH; assumption.
Qed.

Lemma scaled_cell_Permutation (df1 df2 : dataframe) (nz a : Z) :
  has_duplicate (map key_of df1) = false -> Permutation df1 df2 ->
  scaled_cell df1 nz a = scaled_cell df2 nz a.
Proof.
  intros Hd1 Hp.
  assert (Hd2 : has_duplicate (map key_of df2) = false).
  { rewrite <- (has_duplicate_Permutation _ _ (Permutation_map key_of Hp)). exact Hd1. }
  unfold scaled_cell.
  destruct (find (fun r => key_eqb (key_of r) (nz, a)) df1) as [r|] eqn:H1.
  - apply find_some in H1 as [Hr Hk]. apply key_eqb_eq in Hk.
    rewrite (find_unique df2 r (nz, a) Hd2 (Permutation_in _ Hp Hr) Hk). reflexivity.
  - destruct (find (fun r => key_eqb (key_of r) (nz, a)) df2) as [r|] eqn:H2;
      [|reflexivity].
    apply find_some in H2 as [Hr Hk].
    pose proof (find_none _ _ H1 r (Permutation_in _ (Permutation_sym Hp) Hr)) as Hn.
    simpl in Hn. congruence.
Qed.

(** X14: the order of the rows of the input does not matter.  Two frames
    with the same rows in a different order give the same grid and the
    same plot, or raise the same exception. *)
Theorem row_order_irrelevant (exp_fin : Q -> float64) (df1 df2 : dataframe) :
  Permutation df1 df2 ->
  pivoted df1 = pivoted df2 /\ renderer exp_fin df1 = renderer exp_fin df2.
Proof.
  intros Hp.
  assert (Hpiv : pivoted df1 = pivoted df2).
  { rewrite !pivoted_eq. unfold has_text.
    rewrite (existsb_Permutation (fun r => is_str (rec_E r)) _ _ Hp).
    rewrite (existsb_Permutation (fun r => is_str (rec_UE r)) _ _ Hp).
    destruct (_ || _)%bool; [reflexivity|].
    rewrite <- (has_duplicate_Permutation _ _ (Permutation_map key_of Hp)).
    destruct (has_duplicate (map key_of df1)) eqn:Hd; [reflexivity|].
    f_equal. unfold grid_of.
    rewrite <- (distinct_sorted_Permutation _ _ (Permutation_map rec_NmZ Hp)).
    rewrite <- (distinct_sorted_Permutation _ _ (Permutation_map rec_A Hp)).
    f_equal. apply map_ext. intros nz. apply map_ext. intros a.
    apply scaled_cell_Permutation; assumption. }
  split; [exact Hpiv|].
  rewrite !renderer_pivoted, Hpiv. reflexivity.
Qed.

Lemma row_order_irrelevant_witness :
  Permutation sample_frame (rev sample_frame) /\
  pivoted sample_frame = pivoted (rev sample_frame) /\
  renderer (fun q => Fin q) sample_frame = renderer (fun q => Fin q) (rev sample_frame).
Proof.
  split; [apply Permutation_rev|].
  apply (row_order_irrelevant (fun q => Fin q) sample_frame (rev sample_frame)).
  apply Permutation_rev.
Defined.
